(** * PoIT capture pipeline: hook layer, page orchestrator, relay/sanitizer

    A shallow embedding of the three scripts of the browser extension
    ([injected.js], [content.js], [background.js]) and the properties of
    the capture pipeline proved about them.

    JavaScript strings are sequences of UTF-16 code units, modelled as
    [list N].  JSON-like values crossing the message boundaries are the
    inductive type [value]; plain objects are finite maps from property
    names to values. *)

From Stdlib Require Import ZArith NArith List Bool Lia String Ascii.
From stdpp Require Import base option list gmap sets pretty.

Import ListNotations.
Local Open Scope N_scope.

(** ** JavaScript strings *)

Abbreviation jsstring := (list N).

Module JsString.

(** An ASCII literal as a JavaScript string. *)
Fixpoint js (s : string) : jsstring :=
  match s with
  | EmptyString => []
  | String c r => N_of_ascii c :: js r
  end.

Definition is_upper_ascii (c : N) : bool := (65 <=? c) && (c <=? 90).
Definition is_lower_ascii (c : N) : bool := (97 <=? c) && (c <=? 122).
Definition is_letter_ascii (c : N) : bool := is_upper_ascii c || is_lower_ascii c.
Definition is_digit (c : N) : bool := (48 <=? c) && (c <=? 57).

(** [String.prototype.toLowerCase], code unit by code unit.  The case
    mapping is the Unicode one on Basic Latin and the Latin-1 Supplement
    (U+0000..U+00FF); code units above U+00FF are left as they are. *)
Definition lower_unit (c : N) : N :=
  if is_upper_ascii c then c + 32
  else if (192 <=? c) && (c <=? 222) && negb (c =? 215) then c + 32
  else c.

Definition toLowerCase (s : jsstring) : jsstring := map lower_unit s.

(** [String.prototype.toUpperCase] on the same range; three Latin-1
    letters leave the range or expand (sharp s, y with diaeresis, micro). *)
Definition upper_units (c : N) : jsstring :=
  if is_lower_ascii c then [c - 32]
  else if (224 <=? c) && (c <=? 254) && negb (c =? 247) then [c - 32]
  else if c =? 223 then [83; 83]
  else if c =? 255 then [376]
  else if c =? 181 then [924]
  else [c].

Definition toUpperCase (s : jsstring) : jsstring := flat_map upper_units s.

(** WhiteSpace and LineTerminator code units: what [trim] strips and
    what the regular expression class [\s] matches. *)
Definition is_space (c : N) : bool :=
  ((9 <=? c) && (c <=? 13)) || (c =? 32) || (c =? 160) || (c =? 5760)
  || ((8192 <=? c) && (c <=? 8202)) || (c =? 8232) || (c =? 8233)
  || (c =? 8239) || (c =? 8287) || (c =? 12288) || (c =? 65279).

Fixpoint trimStart (s : jsstring) : jsstring :=
  match s with
  | c :: r => if is_space c then trimStart r else s
  | [] => []
  end.

Definition trimEnd (s : jsstring) : jsstring := rev (trimStart (rev s)).
Definition trim (s : jsstring) : jsstring := trimEnd (trimStart s).

Fixpoint startsWith (p s : jsstring) : bool :=
  match p, s with
  | [], _ => true
  | a :: p', b :: s' => (a =? b) && startsWith p' s'
  | _ :: _, [] => false
  end.

(** [s.includes(p)]: [p] occurs in [s] at some position. *)
Fixpoint includes (p s : jsstring) : bool :=
  startsWith p s ||
  match s with
  | [] => false
  | _ :: r => includes p r
  end.

(** [s.replace(pat, rep)] with a string pattern: only the first
    occurrence is replaced. *)
Fixpoint replace_first (pat rep s : jsstring) : jsstring :=
  if startsWith pat s then rep ++ drop (length pat) s
  else match s with
       | [] => []
       | c :: r => c :: replace_first pat rep r
       end.

(** Replacing [/\s+/g], and then [/\d+/g], by the empty string: every
    maximal run is deleted, so exactly the matching code units disappear. *)
Definition strip_spaces (s : jsstring) : jsstring :=
  filter (fun c => is_space c = false) s.
Definition strip_digits (s : jsstring) : jsstring :=
  filter (fun c => is_digit c = false) s.

(** Case-insensitive comparison of one code unit with a pattern
    character, as a regular expression with flag [i] (and without [u])
    does it: both sides are canonicalised by simple upper-casing, and a
    code unit outside ASCII never folds onto an ASCII one. *)
Definition canon (c : N) : N := if is_lower_ascii c then c - 32 else c.
Definition eq_ci (a b : N) : bool := canon a =? canon b.

Fixpoint startsWith_ci (p s : jsstring) : bool :=
  match p, s with
  | [], _ => true
  | a :: p', b :: s' => eq_ci a b && startsWith_ci p' s'
  | _ :: _, [] => false
  end.

Fixpoint includes_ci (p s : jsstring) : bool :=
  startsWith_ci p s ||
  match s with
  | [] => false
  | _ :: r => includes_ci p r
  end.

End JsString.
Import JsString.

(** ** JSON-like values *)

(** Numbers only matter through their truthiness here, so an integer
    stands for the number. *)
#[local] Set Warnings "-register-all".
Inductive value : Type :=
| VUndefined
| VNull
| VBool (b : bool)
| VNum (n : Z)
| VStr (s : jsstring)
| VArr (l : list value)
| VObj (m : gmap jsstring value).

Module JsValue.

(** ToBoolean. *)
Definition truthy (v : value) : bool :=
  match v with
  | VUndefined | VNull => false
  | VBool b => b
  | VNum n => negb (n =? 0)%Z
  | VStr s => match s with [] => false | _ => true end
  | VArr _ | VObj _ => true
  end.

(** [a || b]. *)
Definition or_js (a b : value) : value := if truthy a then a else b.

(** [typeof v === "object"] (which also holds of [null]). *)
Definition typeof_object (v : value) : bool :=
  match v with
  | VNull | VArr _ | VObj _ => true
  | _ => false
  end.

Definition isArray (v : value) : bool :=
  match v with VArr _ => true | _ => false end.

(** The own enumerable properties of an array: its indices. *)
Definition array_props (l : list value) : gmap jsstring value :=
  list_to_map (imap (fun i v => (js (pretty (N.of_nat i)), v)) l).

(** [v.k] for a property name [k] that is neither an array index nor
    [length], which is all the scripts read: an own property of a plain
    object, [undefined] on anything else (reading a property of [null]
    or [undefined] throws; every such read in the scripts is guarded). *)
Definition get (v : value) (k : jsstring) : value :=
  match v with
  | VObj m => default VUndefined (m !! k)
  | _ => VUndefined
  end.

(** [{...v}] for [v] of type object and not [null]. *)
Definition spread (v : value) : gmap jsstring value :=
  match v with
  | VObj m => m
  | VArr l => array_props l
  | _ => ∅
  end.

End JsValue.
Import JsValue.

(** ** Relay and sanitizer: [background.js] *)

Module Background.

(** The two exclusion keywords; the first has o with diaeresis (U+00F6)
    as its second letter. *)
Definition NAME_EXCLUDE_KEYWORDS : list jsstring :=
  [js "f" ++ [246] ++ js "rening"; js "holding"].

(** [url && url.toLowerCase().includes("/enskild/")] for a string. *)
Definition urlContainsEnskild (url : jsstring) : bool :=
  includes (js "/enskild/") (toLowerCase url).

Definition normalizeCompanyName (name : value) : jsstring :=
  match name with
  | VStr s => toLowerCase (strip_digits (strip_spaces s))
  | _ => []
  end.

Definition shouldSkipCompany (name : value) : bool :=
  match name with
  | VStr s =>
      let lowered := toLowerCase s in
      existsb (fun kw => includes kw lowered) NAME_EXCLUDE_KEYWORDS
  | _ => false
  end.

(** [entry.namn || entry.company_name || entry.companyName || entry.title] *)
Definition rawName (entry : value) : value :=
  or_js (or_js (or_js (get entry (js "namn")) (get entry (js "company_name")))
               (get entry (js "companyName")))
        (get entry (js "title")).

(** [entry.kungorelseid || entry.kungorelseId] *)
Definition rawId (entry : value) : value :=
  or_js (get entry (js "kungorelseid")) (get entry (js "kungorelseId")).

Definition normalizeId (rawId : value) : jsstring :=
  match rawId with
  | VStr s => replace_first (js "/") (js "-") (toUpperCase (trim s))
  | _ => []
  end.

Definition nonempty (s : jsstring) : bool :=
  match s with [] => false | _ => true end.

Definition has (x : jsstring) (X : gset jsstring) : bool := bool_decide (x ∈ X).

(** [if (s) X.add(s)] *)
Definition add_nonempty (s : jsstring) (X : gset jsstring) : gset jsstring :=
  if nonempty s then {[ s ]} ∪ X else X.

(** The body of the [for] loop of [sanitizeCompanyList]; the result is
    what the remaining iterations push onto [cleaned], in order. *)
Fixpoint sanitize_loop (items : list value) (seenIds seenNames : gset jsstring)
  : list value :=
  match items with
  | [] => []
  | entry :: rest =>
      if negb (truthy entry) || negb (typeof_object entry) then
        entry :: sanitize_loop rest seenIds seenNames
      else if shouldSkipCompany (rawName entry) then
        sanitize_loop rest seenIds seenNames
      else
        let normalizedId := normalizeId (rawId entry) in
        if nonempty normalizedId && has normalizedId seenIds then
          sanitize_loop rest seenIds seenNames
        else
          let normalizedName := normalizeCompanyName (rawName entry) in
          if nonempty normalizedName && has normalizedName seenNames then
            sanitize_loop rest seenIds seenNames
          else
            entry :: sanitize_loop rest (add_nonempty normalizedId seenIds)
                                        (add_nonempty normalizedName seenNames)
  end.

Definition sanitizeCompanyList (items : value) : value :=
  match items with
  | VArr l => VArr (sanitize_loop l ∅ ∅)
  | _ => items
  end.

Definition sanitizePayload (payload : value) : value :=
  if negb (truthy payload) || negb (typeof_object payload) then payload
  else
    let cloned := spread payload in
    let data := default VUndefined (cloned !! js "data") in
    if isArray data then
      VObj (<[js "data" := sanitizeCompanyList data]> cloned)
    else if truthy data && typeof_object data && isArray (get data (js "data")) then
      VObj (<[js "data" :=
               VObj (<[js "data" := sanitizeCompanyList (get data (js "data"))]>
                       (spread data))]> cloned)
    else VObj cloned.

(** *** Delivery to the collector *)

(** One [fetch] to the collector: the path under [SERVER_URL] and the
    value that is serialised as the body. *)
Record request := Request { endpoint : jsstring; body : value }.

(** What one of the two [post...] functions did.  [Rejected]: the async
    function threw outside its [try] block, before any network call. *)
Inductive post_outcome :=
| Posted (r : request)
| Blocked
| Rejected.

Definition requests_of (o : post_outcome) : list request :=
  match o with Posted r => [r] | _ => [] end.

Definition postToLocal (payload : value) : post_outcome :=
  Posted (Request (js "/save") (sanitizePayload payload)).

(** The guard is [payload && payload.url && urlContainsEnskild(payload.url)];
    a truthy [url] that is not a string has no [toLowerCase], and the
    call throws. *)
Definition postKungorelseToLocal (payload : value) : post_outcome :=
  if truthy payload && truthy (get payload (js "url")) then
    match get payload (js "url") with
    | VStr u =>
        if urlContainsEnskild u then Blocked
        else Posted (Request (js "/save_kungorelse") payload)
    | _ => Rejected
    end
  else Posted (Request (js "/save_kungorelse") payload).

Definition is_type (msg : value) (t : jsstring) : bool :=
  match get msg (js "type") with
  | VStr s => bool_decide (s = t)
  | _ => false
  end.

(** The [chrome.runtime.onMessage] listener: the network calls one
    incoming message leads to. *)
Definition onMessage (msg : value) : list request :=
  if negb (truthy msg) || negb (typeof_object msg) then []
  else if is_type msg (js "KV_SAVE_JSON") && truthy (get msg (js "payload")) then
    requests_of (postToLocal (get msg (js "payload")))
  else if is_type msg (js "KV_SAVE_KUNGORELSE") && truthy (get msg (js "payload")) then
    requests_of (postKungorelseToLocal (get msg (js "payload")))
  else [].

End Background.

(** ** Hook layer: [injected.js] *)

Module Injected.

Definition TARGET_HOST : jsstring := js "poit.bolagsverket.se".

(** The script patches [fetch] and [XMLHttpRequest] only on a page of
    the monitored origin; the wrappers below are the ones it installs
    there, and on any other page nothing is ever posted. *)
Definition PAGE_OK (href : jsstring) : bool :=
  startsWith (js "https://poit.bolagsverket.se/") href.

Definition ignored_prefixes : list jsstring :=
  [js "chrome://"; js "chrome-extension://"; js "file://";
   js "moz-extension://"; js "edge://"; js "about:"; js "data:"].

(** For a string argument; the empty string is falsy and not ignored
    (no prefix matches it either). *)
Definition shouldIgnoreUrl (url : jsstring) : bool :=
  let lowerUrl := toLowerCase url in
  existsb (fun p => startsWith p lowerUrl) ignored_prefixes.

(** The regular expression [/\/poit\/rest\/sok[a-z]*?kung[a-z]*/i]
    after its literal prefix: the lazy [[a-z]*?] tries to go on with
    [kung] first and consumes one more letter only when that fails; the
    trailing [[a-z]*] always matches. *)
Fixpoint lazy_letters_kung (s : jsstring) : bool :=
  startsWith_ci (js "kung") s ||
  match s with
  | c :: r => is_letter_ascii c && lazy_letters_kung r
  | [] => false
  end.

Definition endpoint_at (s : jsstring) : bool :=
  startsWith_ci (js "/poit/rest/sok") s &&
  lazy_letters_kung (drop (length (js "/poit/rest/sok")) s).

(** [re.test(p)]: a match starting at some position of [p]. *)
Fixpoint re_endpoint (p : jsstring) : bool :=
  endpoint_at p ||
  match p with
  | [] => false
  | _ :: r => re_endpoint r
  end.

(** One intercepted call as it is posted over the bridge:
    [bridgeSave({ url, data })]. *)
Record InterceptedCall := Intercepted { ic_url : jsstring; ic_data : value }.

(** The wrapper object with the single property [raw_text]. *)
Definition raw_text (txt : jsstring) : value :=
  VObj {[ js "raw_text" := VStr txt ]}.

(** A value that is [null] or [undefined] ([data != null] fails). *)
Definition nullish (v : value) : bool :=
  match v with VUndefined | VNull => true | _ => false end.

Definition declares_json (ct : jsstring) : bool :=
  includes (js "application/json") (toLowerCase ct).

Section Hooks.

(** [new URL(url, window.location.href)] is the browser's URL parser:
    [resolve url] is [Some (hostname, pathname)] of the parsed URL,
    [None] when the constructor throws. *)
Variable resolve : jsstring -> option (jsstring * jsstring).

Definition isTargetUrl (url : jsstring) : bool :=
  if shouldIgnoreUrl url then false
  else match resolve url with
       | Some (hostname, pathname) =>
           if bool_decide (hostname = TARGET_HOST) then re_endpoint pathname
           else false
       | None => false
       end.

(** *** The [fetch] wrapper *)

(** The first argument of [fetch]: a string, a Request (an object with
    a string [url]), or anything else (a URL object, say), which has no
    [url] property. *)
Inductive fetch_input :=
| UrlString (url : jsstring)
| RequestObject (url : jsstring)
| OtherInput.

(** A string argument as it is, else the [url] property of the
    argument when truthy, else the empty string. *)
Definition requestUrl (i : fetch_input) : jsstring :=
  match i with
  | UrlString u => u
  | RequestObject u => u
  | OtherInput => []
  end.

(** The body stream of a (cloned) response.  It can be read once:
    [text()] and [json()] reject when the stream has been read already.
    [content = None]: reading the stream fails.  [as_json] is what
    parsing the text as JSON gives, [None] when it is not JSON. *)
Record body_stream := Body {
  content : option jsstring;
  as_json : option value;
  bodyUsed : bool;
}.

Definition consume (b : body_stream) : body_stream :=
  Body (content b) (as_json b) true.

(** A response body is a stream or [null] (a 204 or HEAD response): a
    null body is never used up; it reads as no bytes at all, so [text()]
    resolves with the empty string and [json()] rejects, the empty
    text being no JSON. *)
Definition text (b : option body_stream) : option jsstring * option body_stream :=
  match b with
  | None => (Some [], None)
  | Some st => if bodyUsed st then (None, b) else (content st, Some (consume st))
  end.

Definition json (b : option body_stream) : option value * option body_stream :=
  match b with
  | None => (None, None)
  | Some st =>
      if bodyUsed st then (None, b)
      else (match content st with Some _ => as_json st | None => None end,
            Some (consume st))
  end.

Record response := Response {
  content_type : option jsstring;     (* [headers.get("content-type")] *)
  stream : option body_stream;        (* [None]: the body is [null] *)
}.

(** [cloned.text().then(txt => bridgeSave(raw)).catch(() => {})] *)
Definition text_then_save (url : jsstring) (b : option body_stream)
  : list InterceptedCall :=
  match fst (text b) with
  | Some txt => [Intercepted url (raw_text txt)]
  | None => []
  end.

(** What the wrapper posts over the bridge for one call: [result] is
    the response the original [fetch] resolves with, [None] when it
    rejects. *)
Definition fetch_hook (input : fetch_input) (result : option response)
  : list InterceptedCall :=
  let url := requestUrl input in
  if shouldIgnoreUrl url then []
  else
    let shouldCapture := isTargetUrl url in
    match result with
    | None => []
    | Some r =>
        if shouldCapture then
          let ct := default [] (content_type r) in
          if Background.nonempty ct && declares_json ct then
            match json (stream r) with
            | (Some data, _) => [Intercepted url data]
            | (None, used) => text_then_save url used
            end
          else text_then_save url (stream r)
        else []
    end.

(** *** The [XMLHttpRequest] wrappers *)

(** What the wrappers keep on one request object: the recorded URL and
    the [loadend] listeners added by the calls of [send] so far. *)
Record xhr := Xhr { kv_url : option jsstring; listeners : nat }.

Definition new_xhr : xhr := Xhr None 0.

Definition xhr_open (url : jsstring) (x : xhr) : xhr :=
  if shouldIgnoreUrl url then x
  else Xhr (Some url) (listeners x).

Definition xhr_send (x : xhr) : xhr := Xhr (kv_url x) (S (listeners x)).

(** The request object when [loadend] fires.  [parsed] is what
    [JSON.parse(responseText)] returns, [None] when it throws. *)
Record xhr_result := XhrResult {
  responseType : jsstring;
  responseText : jsstring;
  parsed : option value;
  response_attr : value;                   (* [this.response] *)
  content_type_header : option jsstring;   (* [getResponseHeader] *)
}.

(** One [loadend] listener. *)
Definition loadend_handler (x : xhr) (r : xhr_result) : list InterceptedCall :=
  match kv_url x with
  | None => []
  | Some url =>
      if negb (Background.nonempty url) || negb (isTargetUrl url) then []
      else
        let ct := toLowerCase (default [] (content_type_header r)) in
        let data :=
          if bool_decide (responseType r = []) || bool_decide (responseType r = js "text") then
            if includes (js "application/json") ct then
              match parsed r with
              | Some v => v
              | None => raw_text (responseText r)
              end
            else raw_text (responseText r)
          else if bool_decide (responseType r = js "json") then response_attr r
          else VNull in
        if nullish data then [] else [Intercepted url data]
  end.

(** [loadend] runs every listener that was added. *)
Definition xhr_loadend (x : xhr) (r : xhr_result) : list InterceptedCall :=
  concat (replicate (listeners x) (loadend_handler x r)).

End Hooks.

End Injected.

(** ** Page orchestrator: [content.js] *)

Module Content.

Import Background.

(** *** The page as the script reads it *)

Record anchor := Anchor {
  a_href : jsstring;               (* the [href] attribute *)
  a_title : option jsstring;       (* the [title] attribute *)
  a_class : list jsstring;         (* the class list *)
}.

(** [body_innerText = None]: [document.body] is [null].
    [main_innerHTML = None]: there is no [main] element.
    [anchors]: the [a] elements in document order. *)
Record document := Document {
  body_innerText : option jsstring;
  main_innerHTML : option jsstring;
  doc_title : jsstring;
  anchors : list anchor;
}.

Definition has_body (d : document) : bool :=
  match body_innerText d with Some _ => true | None => false end.

Definition href_has (sub : jsstring) (a : anchor) : bool := includes sub (a_href a).

(** Visa kungorelse, with o with diaeresis. *)
Definition visa_kungorelse : jsstring := js "Visa kung" ++ [246] ++ js "relse".

(** The three selectors of [handleEnskildPage], most specific first. *)
Definition selectors : list (anchor -> bool) :=
  [ fun a => href_has (js "/poit-app/kungorelse/K") a
             && bool_decide (a_title a = Some visa_kungorelse);
    fun a => bool_decide (js "btn-link" ∈ a_class a)
             && href_has (js "/kungorelse/K") a;
    fun a => href_has (js "/kungorelse/K") a ].

Definition querySelector (sel : anchor -> bool) (d : document) : option anchor :=
  find sel (anchors d).

(** The first selector, in order, that matches some element. *)
Fixpoint first_link (sels : list (anchor -> bool)) (d : document) : option anchor :=
  match sels with
  | [] => None
  | sel :: rest =>
      match querySelector sel d with
      | Some link => Some link
      | None => first_link rest d
      end
  end.

(** [document.querySelectorAll('a[href*="/kungorelse/K"]').length] *)
Definition linkCount (d : document) : nat :=
  length (List.filter (href_has (js "/kungorelse/K")) (anchors d)).

(** *** URL classification *)

Definition kungorelse_prefix : jsstring :=
  js "https://poit.bolagsverket.se/poit-app/kungorelse/K".

(** The anchored pattern for a detail page: the prefix, then at least
    one code unit that is not a slash. *)
Definition re_kungorelse (url : jsstring) : bool :=
  startsWith_ci kungorelse_prefix url &&
  match drop (length kungorelse_prefix) url with
  | c :: _ => negb (c =? 47)
  | [] => false
  end.

(** The anchored pattern for an alias page. *)
Definition re_enskild (url : jsstring) : bool :=
  startsWith_ci (js "https://poit.bolagsverket.se/poit-app/enskild/") url.

Definition isKungorelsePage (href : jsstring) : bool :=
  if includes (js "/enskild/") (toLowerCase href) then false
  else re_kungorelse href.

Definition isEnskildPage (href : jsstring) : bool :=
  includes_ci (js "/enskild/") href.

Definition digit_or_hyphen (c : N) : bool := is_digit c || (c =? 45).

Fixpoint take_run (s : jsstring) : jsstring :=
  match s with
  | c :: r => if digit_or_hyphen c then c :: take_run r else []
  | [] => []
  end.

(** A match of [(?:kungorelse|enskild)\/(K[\d\-]+)] starting at the
    head of [s]: the captured group. *)
Definition id_at (s : jsstring) : option jsstring :=
  let after (p : jsstring) :=
    if startsWith p s then
      match take_run (drop (length p) s) with
      | [] => None
      | run => Some (75 :: run)
      end
    else None in
  match after (js "kungorelse/K") with
  | Some i => Some i
  | None => after (js "enskild/K")
  end.

(** The leftmost match in the URL. *)
Fixpoint extractKungorelseId (href : jsstring) : option jsstring :=
  match id_at href with
  | Some i => Some i
  | None =>
      match href with
      | [] => None
      | _ :: r => extractKungorelseId r
      end
  end.

(** *** Messages to the relay *)

Record CaptureRecord := Capture {
  url : jsstring;
  kungorelseId : jsstring;
  textContent : jsstring;
  htmlContent : jsstring;
  timestamp : jsstring;
  title : jsstring;
}.

Inductive message :=
| KV_SAVE_JSON (payload : value)
| KV_SAVE_KUNGORELSE (payload : CaptureRecord).

Definition record_value (r : CaptureRecord) : value :=
  VObj (<[js "url" := VStr (url r)]>
       (<[js "kungorelseId" := VStr (kungorelseId r)]>
       (<[js "textContent" := VStr (textContent r)]>
       (<[js "htmlContent" := VStr (htmlContent r)]>
       (<[js "timestamp" := VStr (timestamp r)]>
       (<[js "title" := VStr (title r)]> ∅)))))).

(** The object handed to [chrome.runtime.sendMessage]. *)
Definition message_value (m : message) : value :=
  match m with
  | KV_SAVE_JSON p =>
      VObj (<[js "type" := VStr (js "KV_SAVE_JSON")]> (<[js "payload" := p]> ∅))
  | KV_SAVE_KUNGORELSE r =>
      VObj (<[js "type" := VStr (js "KV_SAVE_KUNGORELSE")]>
           (<[js "payload" := record_value r]> ∅))
  end.

(** *** The script's state and the event queue *)

(** What runs when the promise returned by [handleEnskildPage] resolves:
    nothing, the callback of the initial check (a 2500 ms timer), or the
    callback of the URL poller (a 2000 ms timer). *)
Inductive followup := NoFollowup | InitialFollowup | PollFollowup.

(** A callback waiting in the event queue: a timer that has not fired
    yet or the rest of [handleEnskildPage] after one of its awaits. *)
Inductive task :=
| InitialCheck
| StartObserver
| CaptureCheck (normalizedId : jsstring)
| AfterEnskildInitial
| AfterEnskildPoll
| EnskildDwell (k : followup)
| EnskildClick (link : anchor) (k : followup).

(** [href] and [doc] belong to the page; [enskildHandled] is the flag the
    script keeps in the dataset of [document.body]; [outbox] and [clicks]
    log the calls of [chrome.runtime.sendMessage] and of [link.click],
    newest first. *)
Record state := State {
  href : jsstring;
  doc : document;
  enskildHandled : bool;
  capturedKungorelseIds : gset jsstring;
  pendingCaptures : gset jsstring;
  monitoring : bool;
  observing : bool;
  lastUrl : jsstring;
  tasks : list task;
  outbox : list message;
  clicks : list anchor;
}.

Definition set_href (u : jsstring) (s : state) : state :=
  State u (doc s) (enskildHandled s) (capturedKungorelseIds s) (pendingCaptures s)
        (monitoring s) (observing s) (lastUrl s) (tasks s) (outbox s) (clicks s).
Definition set_doc (d : document) (h : bool) (s : state) : state :=
  State (href s) d h (capturedKungorelseIds s) (pendingCaptures s)
        (monitoring s) (observing s) (lastUrl s) (tasks s) (outbox s) (clicks s).
Definition set_handled (h : bool) (s : state) : state :=
  State (href s) (doc s) h (capturedKungorelseIds s) (pendingCaptures s)
        (monitoring s) (observing s) (lastUrl s) (tasks s) (outbox s) (clicks s).
Definition set_captured (C : gset jsstring) (s : state) : state :=
  State (href s) (doc s) (enskildHandled s) C (pendingCaptures s)
        (monitoring s) (observing s) (lastUrl s) (tasks s) (outbox s) (clicks s).
Definition set_pending (P : gset jsstring) (s : state) : state :=
  State (href s) (doc s) (enskildHandled s) (capturedKungorelseIds s) P
        (monitoring s) (observing s) (lastUrl s) (tasks s) (outbox s) (clicks s).
Definition set_monitoring (b : bool) (s : state) : state :=
  State (href s) (doc s) (enskildHandled s) (capturedKungorelseIds s) (pendingCaptures s)
        b (observing s) (lastUrl s) (tasks s) (outbox s) (clicks s).
Definition set_observing (b : bool) (s : state) : state :=
  State (href s) (doc s) (enskildHandled s) (capturedKungorelseIds s) (pendingCaptures s)
        (monitoring s) b (lastUrl s) (tasks s) (outbox s) (clicks s).
Definition set_lastUrl (u : jsstring) (s : state) : state :=
  State (href s) (doc s) (enskildHandled s) (capturedKungorelseIds s) (pendingCaptures s)
        (monitoring s) (observing s) u (tasks s) (outbox s) (clicks s).
Definition set_tasks (ts : list task) (s : state) : state :=
  State (href s) (doc s) (enskildHandled s) (capturedKungorelseIds s) (pendingCaptures s)
        (monitoring s) (observing s) (lastUrl s) ts (outbox s) (clicks s).
Definition add_task (t : task) (s : state) : state := set_tasks (tasks s ++ [t]) s.
Definition push_message (m : message) (s : state) : state :=
  State (href s) (doc s) (enskildHandled s) (capturedKungorelseIds s) (pendingCaptures s)
        (monitoring s) (observing s) (lastUrl s) (tasks s) (m :: outbox s) (clicks s).
Definition push_click (a : anchor) (s : state) : state :=
  State (href s) (doc s) (enskildHandled s) (capturedKungorelseIds s) (pendingCaptures s)
        (monitoring s) (observing s) (lastUrl s) (tasks s) (outbox s) (a :: clicks s).

(** *** The message bridge *)

Definition is_true (v : value) : bool :=
  match v with VBool true => true | _ => false end.

(** The [message] listener on [window]. *)
Definition bridge (same_window : bool) (data : value) (s : state) : state :=
  if negb same_window then s
  else if negb (truthy data) || negb (is_true (get data (js "__kv"))) then s
  else if is_type data (js "KV_SAVE_JSON") && truthy (get data (js "payload")) then
    push_message (KV_SAVE_JSON (get data (js "payload"))) s
  else s.

(** *** Capture *)

(** [captureKungorelseData], up to the [setTimeout]. *)
Definition captureKungorelseData (s : state) : state :=
  if urlContainsEnskild (href s) then s
  else if negb (isKungorelsePage (href s)) || isEnskildPage (href s) then s
  else
    match extractKungorelseId (href s) with
    | None => s
    | Some kungorelseId =>
        let normalizedId := replace_first (js "/") (js "-") kungorelseId in
        if has normalizedId (capturedKungorelseIds s)
           || has normalizedId (pendingCaptures s) then s
        else
          add_task (CaptureCheck normalizedId)
            (set_pending ({[ normalizedId ]} ∪ pendingCaptures s) s)
    end.

Definition unqueue (normalizedId : jsstring) (s : state) : state :=
  set_pending (pendingCaptures s ∖ {[ normalizedId ]}) s.

(** The callback of the 3000 ms timer; [now] is the clock reading used
    for the timestamp. *)
Definition captureCheck (normalizedId now : jsstring) (s : state) : state :=
  let stillKungorelse := re_kungorelse (href s) in
  let stillEnskild := re_enskild (href s) in
  if negb stillKungorelse || stillEnskild then unqueue normalizedId s
  else if has normalizedId (capturedKungorelseIds s) then unqueue normalizedId s
  else
    let text := default [] (body_innerText (doc s)) in
    if (length text <? 500)%nat then unqueue normalizedId s
    else if (2 <? linkCount (doc s))%nat && (length text <? 1000)%nat then
      unqueue normalizedId s
    else
      let urlToSend := href s in
      if urlContainsEnskild urlToSend then unqueue normalizedId s
      else
        let s1 := set_captured ({[ normalizedId ]} ∪ capturedKungorelseIds s) s in
        let s2 := unqueue normalizedId s1 in
        let html := default [] (main_innerHTML (doc s)) in
        push_message
          (KV_SAVE_KUNGORELSE
             {| url := urlToSend;
                kungorelseId := normalizedId;
                textContent := text;
                htmlContent := html;
                timestamp := now;
                title := if nonempty (doc_title (doc s)) then doc_title (doc s)
                         else js "Kung" ++ [246] ++ js "relse " ++ normalizedId |})
          s2.

(** *** Alias pages *)

(** The promise of [handleEnskildPage] resolves: its [then] callback,
    if any, starts its timer. *)
Definition resolved (k : followup) (s : state) : state :=
  match k with
  | NoFollowup => s
  | InitialFollowup => add_task AfterEnskildInitial s
  | PollFollowup => add_task AfterEnskildPoll s
  end.

(** [handleEnskildPage] up to its first [await]. *)
Definition handleEnskildPage (k : followup) (s : state) : state :=
  if negb (isEnskildPage (href s)) then resolved k s
  else if has_body (doc s) && enskildHandled s then resolved k s
  else
    add_task (EnskildDwell k)
      (if has_body (doc s) then set_handled true s else s).

(** After the dwell delay: look for the link. *)
Definition enskildDwell (k : followup) (s : state) : state :=
  match first_link selectors (doc s) with
  | Some link => add_task (EnskildClick link k) s
  | None => resolved k s
  end.

(** After the click delay. *)
Definition enskildClick (link : anchor) (k : followup) (s : state) : state :=
  resolved k (push_click link s).

(** *** Triggers *)

Definition startObserver (s : state) : state :=
  if has_body (doc s) then set_observing true s else add_task StartObserver s.

(** The callback of the [MutationObserver]. *)
Definition observe (s : state) : state :=
  if re_enskild (href s) then handleEnskildPage NoFollowup s else s.

(** The callback of the 500 ms interval. *)
Definition poll (s : state) : state :=
  let currentUrl := href s in
  if bool_decide (currentUrl = lastUrl s) then s
  else
    let s1 := set_lastUrl currentUrl s in
    let s2 := if has_body (doc s1) then set_handled false s1 else s1 in
    if re_enskild currentUrl then handleEnskildPage PollFollowup s2
    else if re_kungorelse currentUrl then captureKungorelseData s2
    else s2.

Definition run_task (t : task) (now : jsstring) (s : state) : state :=
  match t with
  | InitialCheck =>
      if isEnskildPage (href s) then handleEnskildPage InitialFollowup s
      else if isKungorelsePage (href s) then captureKungorelseData s
      else s
  | StartObserver => startObserver s
  | CaptureCheck normalizedId => captureCheck normalizedId now s
  | AfterEnskildInitial =>
      if re_kungorelse (href s) && negb (re_enskild (href s))
      then captureKungorelseData s else s
  | AfterEnskildPoll => captureKungorelseData s
  | EnskildDwell k => enskildDwell k s
  | EnskildClick link k => enskildClick link k s
  end.

(** What can happen next.  [Navigate] and [Mutate] are the page's own
    doing: the location changes, the DOM changes in place (the dataset
    of a body that stays is kept, a new body starts without the flag).
    The others run one callback of the script to completion; [RunTask i]
    fires the [i]-th waiting callback, in any order. *)
Inductive event :=
| Navigate (u : jsstring)
| Mutate (d : document)
| WindowMessage (same_window : bool) (data : value)
| PollTick
| ObserverFire
| RunTask (i : nat) (now : jsstring).

Definition step (ev : event) (s : state) : state :=
  match ev with
  | Navigate u => set_href u s
  | Mutate d => set_doc d (enskildHandled s && has_body (doc s) && has_body d) s
  | WindowMessage same_window data => bridge same_window data s
  | PollTick => if monitoring s then poll s else s
  | ObserverFire => if observing s then observe s else s
  | RunTask i now =>
      match tasks s !! i with
      | Some t => run_task t now (set_tasks (delete i (tasks s)) s)
      | None => s
      end
  end.

Definition run (s : state) (evs : list event) : state :=
  fold_left (fun s ev => step ev s) evs s.

(** The script is loaded into a page; [loading] is
    [document.readyState === "loading"]. *)
Definition load (href0 : jsstring) (d : document) (loading : bool) : state :=
  let IS_KUNGORELSE := isKungorelsePage href0 in
  let IS_ENSKILD := isEnskildPage href0 in
  let s0 := State href0 d false ∅ ∅ false false href0 [] [] [] in
  let s1 :=
    if IS_KUNGORELSE || IS_ENSKILD then
      let s := add_task InitialCheck (set_monitoring true s0) in
      if loading then add_task StartObserver s else startObserver s
    else s0 in
  if IS_ENSKILD then handleEnskildPage NoFollowup s1 else s1.

End Content.

(** ** Vocabulary of the statements *)

(** *** Sanitizer *)

Module SanitizerSpec.
Import Background.

(** An entry the loop examines: truthy and of type object. *)
Definition is_entry_object (entry : value) : bool := truthy entry && typeof_object entry.

(** The property names under which an entry may carry its name, in the
    order in which [rawName] tries them. *)
Definition name_fields : list jsstring :=
  [js "namn"; js "company_name"; js "companyName"; js "title"].

(** An entry with a single property holding a string. *)
Definition with_field (field text : jsstring) : value := VObj {[ field := VStr text ]}.

(** An entry with an id and a name. *)
Definition company (id name : jsstring) : value :=
  VObj (<[js "kungorelseid" := VStr id]> {[ js "namn" := VStr name ]}).

(** An entry with an ordinary name and a title that holds a keyword. *)
Definition two_names : value :=
  VObj (<[js "namn" := VStr (js "Exempel Teknik AB")]>
          {[ js "title" := VStr (js "Exempel Holding AB") ]}).

(** The non-empty normalized ids of the entries of a list, in order. *)
Definition kept_ids (out : list value) : list jsstring :=
  List.filter nonempty (map (fun e => normalizeId (rawId e)) out).

End SanitizerSpec.

(** *** Hook layer *)

Module HookSpec.
Import Injected.

(** The call is not of interest: its URL is on the ignore list, or does
    not parse to the monitored host with an endpoint path. *)
Definition off_target (resolve : jsstring -> option (jsstring * jsstring))
  (url : jsstring) : Prop :=
  shouldIgnoreUrl url = true
  \/ forall hostname pathname, resolve url = Some (hostname, pathname) ->
       hostname <> TARGET_HOST \/ re_endpoint pathname = false.

Definition header_declares_json (header : option jsstring) : bool :=
  declares_json (default [] header).

(** [responseType] is the empty string or [text]. *)
Definition text_response (r : xhr_result) : bool :=
  bool_decide (responseType r = []) || bool_decide (responseType r = js "text").

Definition json_response (r : xhr_result) : bool :=
  bool_decide (responseType r = js "json").

(** Example data: the search endpoint, a data URL, and a parser that
    knows the one endpoint URL. *)
Definition search_url : jsstring :=
  js "https://poit.bolagsverket.se/poit/rest/sokKungorelse".

Definition data_url : jsstring := js "data:text/plain,hello".

Definition example_resolve (url : jsstring) : option (jsstring * jsstring) :=
  if bool_decide (url = search_url)
  then Some (TARGET_HOST, js "/poit/rest/sokKungorelse") else None.

(** The result of an XHR call that loaded the text hello as text/plain. *)
Definition hello_result : xhr_result :=
  XhrResult [] (js "hello") None VUndefined (Some (js "text/plain")).

(** A request object used once for [url]. *)
Definition used_once (url : jsstring) : xhr := xhr_send (xhr_open url new_xhr).

(** A request object used for [first] and then again for [second]. *)
Definition used_twice (first second : jsstring) : xhr :=
  xhr_send (xhr_open second (used_once first)).

(** A response that declares JSON and carries an HTML error page. *)
Definition html_as_json : response :=
  Response (Some (js "application/json")) (Some (Body (Some (js "<html>")) None false)).

(** An XHR result with [responseType] json whose body did not parse:
    [response] is [null]. *)
Definition unparsed_json_result : xhr_result :=
  XhrResult (js "json") [] None VNull (Some (js "application/json")).

(** An XHR text result whose body is the JSON text null. *)
Definition json_null_result : xhr_result :=
  XhrResult [] (js "null") (Some VNull) (VStr (js "null")) (Some (js "application/json")).

(** A response whose body stream breaks while it is read. *)
Definition broken_stream : response :=
  Response (Some (js "text/html")) (Some (Body None None false)).

(** A response without a body that declares JSON. *)
Definition no_content : response := Response (Some (js "application/json")) None.

(** An XHR result with [responseType] blob. *)
Definition blob_result : xhr_result :=
  XhrResult (js "blob") [] None VUndefined (Some (js "application/json")).

End HookSpec.

(** *** Page orchestrator *)

Module CaptureSpec.
Import Background Content.

Definition sent_id (m : message) : option jsstring :=
  match m with
  | KV_SAVE_KUNGORELSE r => Some (kungorelseId r)
  | KV_SAVE_JSON _ => None
  end.

(** The ids of the capture records sent so far. *)
Definition sent_ids (out : list message) : list jsstring := omap sent_id out.

(** How many capture records with this id were sent. *)
Definition capture_count (normalizedId : jsstring) (out : list message) : nat :=
  length (List.filter (fun y => bool_decide (y = normalizedId)) (sent_ids out)).

Definition safe_message (m : message) : bool :=
  match m with
  | KV_SAVE_KUNGORELSE r => negb (urlContainsEnskild (url r))
  | KV_SAVE_JSON _ => true
  end.

(** The invariant of the dedup state and the outbox. *)
Record capture_inv (s : state) : Prop := CaptureInv {
  inv_disjoint : capturedKungorelseIds s ## pendingCaptures s;
  inv_sent_captured : forall x, x ∈ sent_ids (outbox s) -> x ∈ capturedKungorelseIds s;
  inv_sent_once : NoDup (sent_ids (outbox s));
  inv_safe : forall m, m ∈ outbox s -> safe_message m = true;
}.

(** Steps that leave the dedup sets and the outbox alone. *)
Definition same_capture_state (s s' : state) : Prop :=
  capturedKungorelseIds s' = capturedKungorelseIds s
  /\ pendingCaptures s' = pendingCaptures s
  /\ outbox s' = outbox s.



(** The poller sees a new URL at this event. *)
Definition detects_change (ev : event) (s : state) : bool :=
  match ev with
  | PollTick => monitoring s && negb (bool_decide (href s = lastUrl s))
  | _ => false
  end.

(** The number of URL changes the poller sees along a run. *)
Fixpoint url_changes (s : state) (evs : list event) : nat :=
  match evs with
  | [] => 0
  | ev :: rest => (if detects_change ev s then 1 else 0) + url_changes (step ev s) rest
  end.

(** The page does not lose [document.body] at this event. *)
Definition keeps_body (ev : event) : bool :=
  match ev with
  | Mutate d => has_body d
  | _ => true
  end.

(** The event is the page's own doing, not a callback of the script. *)
Definition page_event (ev : event) : bool :=
  match ev with
  | Navigate _ | Mutate _ => true
  | _ => false
  end.

(** A continuation of [handleEnskildPage] that may still click. *)
Definition in_flight (t : task) : bool :=
  match t with
  | EnskildDwell _ | EnskildClick _ _ => true
  | _ => false
  end.

Definition in_flight_count (ts : list task) : nat := length (List.filter in_flight ts).
Arguments in_flight_count : simpl never.

(** Clicks done and clicks that may still come, plus one while the flag
    is unset. *)
Definition click_budget (s : state) : nat :=
  length (clicks s) + in_flight_count (tasks s) + (if enskildHandled s then 0 else 1).

(** Handlers outside the alias logic leave its state alone. *)
Definition same_click_state (s s' : state) : Prop :=
  clicks s' = clicks s /\ enskildHandled s' = enskildHandled s
  /\ in_flight_count (tasks s') = in_flight_count (tasks s)
  /\ doc s' = doc s.

(** Example data. *)
Definition detail_url : jsstring :=
  js "https://poit.bolagsverket.se/poit-app/kungorelse/K100-25".

Definition alias_url : jsstring :=
  js "https://poit.bolagsverket.se/poit-app/enskild/K100-25".

Definition clock : jsstring := js "2025-01-01T00:00:00.000Z".

Definition announcement_link : anchor :=
  Anchor (js "/poit-app/kungorelse/K100-25") (Some visa_kungorelse) [js "btn-link"].

(** A rendered page with [n] characters of text and [links] links to
    announcements. *)
Definition page_with (n links : nat) : document :=
  Document (Some (replicate n 120)) None (js "PoIT") (replicate links announcement_link).

(** The document before the parser has created [body]. *)
Definition no_body_yet : document := Document None None [] [].


(** The script is loaded on the alias page of K100-25, clicks through,
    the page navigates to the detail page, the poller queues the capture;
    the same detail URL is reached a second time before the timer fires;
    the timer fires on the rendered page; later the alias and the detail
    page are visited again. *)
Definition alias_to_detail : list event :=
  [ RunTask 1 clock;            (* dwell is over: the link is found *)
    RunTask 1 clock;            (* the click *)
    Navigate detail_url;
    PollTick;                   (* queues K100-25 *)
    RunTask 0 clock;            (* the initial check: a duplicate *)
    Navigate alias_url;
    Navigate detail_url;
    PollTick;                   (* same URL as last seen *)
    ObserverFire;
    RunTask 0 clock;            (* the capture check *)
    Navigate alias_url;
    PollTick;
    Navigate detail_url;
    PollTick ].

Definition scenario_start : state := load alias_url (page_with 600 1) false.

(** The alias page is loaded before the parser has created the body (the
    script runs at document start); the DOM arrives; the initial check
    fires; both dwell delays end; both click delays end. *)
Definition early_load_run : list event :=
  [ Mutate (page_with 600 1);
    RunTask 0 clock;           (* the initial check invokes the handler again *)
    RunTask 1 clock;           (* first invocation: dwell over, link found *)
    RunTask 1 clock;           (* second invocation: dwell over, link found *)
    RunTask 1 clock;           (* first click *)
    RunTask 1 clock ].         (* second click *)

(** A second alias page, reached from the first one while the handler
    started there is still in its dwell delay. *)
Definition other_alias_url : jsstring :=
  js "https://poit.bolagsverket.se/poit-app/enskild/K200-25".

Definition second_alias_reached : state :=
  run scenario_start [Navigate other_alias_url; PollTick].

(** On the second alias page, with no further URL change: both dwell
    delays end, both click delays end. *)
Definition overlapping_handlers : list event :=
  [ RunTask 1 clock;           (* the handler of the first page finds a link *)
    RunTask 1 clock;           (* the handler of the second page finds it too *)
    RunTask 1 clock;           (* first click *)
    RunTask 1 clock ].         (* second click *)

(** The script was loaded on a rendered detail page that also shows a
    link to an announcement; the initial check and the capture check
    have run, no timer is waiting. *)
Definition settled_detail_page : state :=
  run (load detail_url (page_with 2000 1) false) [RunTask 0 clock; RunTask 0 clock].

(** The page changes to [u]; the mutation observer fires before the
    next tick of the URL poller; then both dwell delays end and both
    click delays end. *)
Definition observer_before_poller (u now : jsstring) : list event :=
  [ Navigate u;
    ObserverFire;              (* the handler sets the flag and starts its dwell *)
    PollTick;                  (* new URL: the flag is cleared, the handler runs again *)
    RunTask 0 now;             (* first dwell over: the link is found *)
    RunTask 0 now;             (* second dwell over: the link is found *)
    RunTask 0 now;             (* first click *)
    RunTask 0 now ].           (* second click *)

End CaptureSpec.

(** ** More of the scripts, and the vocabulary of further statements *)

Module Coverage.
Import Background Injected Content SanitizerSpec CaptureSpec HookSpec.

(** *** [bridgeSave] and the way of an intercepted call *)

(** The object literal the wrappers hand to [bridgeSave]: [{ url, data }]. *)
Definition call_payload (c : InterceptedCall) : value :=
  VObj (<[js "url" := VStr (ic_url c)]> {[ js "data" := ic_data c ]}).

(** The message [bridgeSave] posts to the window. *)
Definition bridgeSave (payload : value) : value :=
  VObj (<[js "__kv" := VBool true]>
       (<[js "type" := VStr (js "KV_SAVE_JSON")]> {[ js "payload" := payload ]})).

(** *** The life of one request object *)

Inductive xhr_op :=
| Open (url : jsstring)
| Send.

Definition xhr_apply (x : xhr) (op : xhr_op) : xhr :=
  match op with
  | Open url => xhr_open url x
  | Send => xhr_send x
  end.

Definition xhr_history (ops : list xhr_op) : xhr := fold_left xhr_apply ops new_xhr.

(** The URL of the latest [open] that was not on the ignore list. *)
Fixpoint last_recorded (ops : list xhr_op) (before : option jsstring) : option jsstring :=
  match ops with
  | [] => before
  | Open url :: rest =>
      last_recorded rest (if shouldIgnoreUrl url then before else Some url)
  | Send :: rest => last_recorded rest before
  end.

Definition sends (ops : list xhr_op) : nat :=
  length (List.filter (fun op => match op with Send => true | Open _ => false end) ops).

(** *** Patterns, said without a matcher *)

(** Two strings of the same length that agree up to the case of ASCII
    letters. *)
Definition same_ci (p s : jsstring) : Prop := Forall2 (fun a b => eq_ci a b = true) p s.

(** The path holds, somewhere, the literal prefix of the endpoint
    pattern, then ASCII letters only, then kung, in any letter case. *)
Definition endpoint_shape (p : jsstring) : Prop :=
  exists before prefix letters kung after,
    p = before ++ prefix ++ letters ++ kung ++ after
    /\ same_ci (js "/poit/rest/sok") prefix
    /\ forallb is_letter_ascii letters = true
    /\ same_ci (js "kung") kung.

(** The name has a stretch whose lower case is one of the keywords. *)
Definition holds_keyword (name : jsstring) : Prop :=
  exists before stretch after kw,
    name = before ++ stretch ++ after
    /\ kw ∈ NAME_EXCLUDE_KEYWORDS
    /\ toLowerCase stretch = kw.

(** An announcement id as the URL pattern captures it: K, then one or
    more digits or hyphens. *)
Definition is_announcement_id (x : jsstring) : bool :=
  match x with
  | 75 :: (_ :: _) as run => forallb digit_or_hyphen run
  | _ => false
  end.

(** *** Further invariants of a run *)

Definition check_id (t : task) : option jsstring :=
  match t with
  | CaptureCheck x => Some x
  | _ => None
  end.

(** The ids whose capture check is waiting. *)
Definition check_ids (ts : list task) : list jsstring := omap check_id ts.

Definition click_link (t : task) : option anchor :=
  match t with
  | EnskildClick link _ => Some link
  | _ => None
  end.

(** The links whose click is waiting. *)
Definition click_links (ts : list task) : list anchor := omap click_link ts.

Definition sent_record (m : message) : option CaptureRecord :=
  match m with
  | KV_SAVE_KUNGORELSE r => Some r
  | KV_SAVE_JSON _ => None
  end.

Definition sent_records (out : list message) : list CaptureRecord := omap sent_record out.

(** What every record sent has: the URL of a detail page without the
    alias segment, at least 500 characters of text, a title, and an
    announcement id. *)
Definition good_record (r : CaptureRecord) : Prop :=
  re_kungorelse (url r) = true
  /\ urlContainsEnskild (url r) = false
  /\ (500 <= length (textContent r))%nat
  /\ title r <> []
  /\ is_announcement_id (kungorelseId r) = true.

Definition announcement_href (a : anchor) : bool := href_has (js "/kungorelse/K") a.

Record queue_inv (s : state) : Prop := QueueInv {
  q_pending : forall x, x ∈ pendingCaptures s <-> x ∈ check_ids (tasks s);
  q_single : NoDup (check_ids (tasks s));
  q_ids : forall x, x ∈ check_ids (tasks s) -> is_announcement_id x = true;
  q_captured : forall x, x ∈ capturedKungorelseIds s <-> x ∈ sent_ids (outbox s);
  q_records : forall r, r ∈ sent_records (outbox s) -> good_record r;
  q_clicks : forall a, a ∈ clicks s -> announcement_href a = true;
  q_click_tasks : forall a, a ∈ click_links (tasks s) -> announcement_href a = true;
}.

(** Steps that leave alone everything the invariant speaks of. *)
Definition same_queue_state (s s' : state) : Prop :=
  pendingCaptures s' = pendingCaptures s
  /\ capturedKungorelseIds s' = capturedKungorelseIds s
  /\ outbox s' = outbox s
  /\ clicks s' = clicks s
  /\ check_ids (tasks s') = check_ids (tasks s)
  /\ click_links (tasks s') = click_links (tasks s).

(** The script installed nothing but the message bridge. *)
Definition passive (s : state) : Prop :=
  monitoring s = false /\ observing s = false /\ tasks s = []
  /\ clicks s = [] /\ sent_ids (outbox s) = []
  /\ capturedKungorelseIds s = ∅ /\ pendingCaptures s = ∅.

(** The payloads of the bridged messages of an outbox, newest first. *)
Definition bridged (out : list message) : list value :=
  omap (fun m => match m with KV_SAVE_JSON p => Some p | _ => None end) out.

(** The window messages of a run that pass the bridge's tests, newest
    first. *)
Definition accepted_message (ev : event) : option value :=
  match ev with
  | WindowMessage true data =>
      if truthy data && is_true (get data (js "__kv"))
         && is_type data (js "KV_SAVE_JSON") && truthy (get data (js "payload"))
      then Some (get data (js "payload")) else None
  | _ => None
  end.

(** Every code unit of the string is at most U+00FF: the range on
    which [toLowerCase] above is the case mapping of the language. *)
Definition latin1 (s : jsstring) : bool := forallb (fun c => (c <=? 255)%N) s.

(** The normalized names of the entries of a list that have one. *)
Definition kept_names (out : list value) : list jsstring :=
  List.filter nonempty (map (fun e => normalizeCompanyName (rawName e)) out).

(** The record [captureCheck] builds at time [now] on page [u] showing
    document [d], for the id [x] it was queued with. *)
Definition record_of (u : jsstring) (d : document) (x now : jsstring) : CaptureRecord :=
  {| url := u;
     kungorelseId := x;
     textContent := default [] (body_innerText d);
     htmlContent := default [] (main_innerHTML d);
     timestamp := now;
     title := if nonempty (doc_title d) then doc_title d
              else js "Kung" ++ [246] ++ js "relse " ++ x |}.

(** What the relay's sanitizer makes of the [data] of an intercepted
    call. *)
Definition relayed_data (data : value) : value :=
  match data with
  | VArr l => VArr (sanitize_loop l ∅ ∅)
  | VObj dm =>
      match dm !! js "data" with
      | Some (VArr l) => VObj (<[js "data" := VArr (sanitize_loop l ∅ ∅)]> dm)
      | _ => data
      end
  | _ => data
  end.

(** Example data. *)
Definition listing_url : jsstring := js "https://poit.bolagsverket.se/poit-app/sok".

End Coverage.

(** * Properties *)

(** Case analysis on every condition the goal branches on. *)
Ltac case_ifs :=
  repeat match goal with |- context [if ?b then _ else _] => destruct b end.

(** ** The definitions at work *)

Section Evaluation.
Import Background Injected Content CaptureSpec HookSpec.

Example lower_case_keyword :
  toLowerCase (js "F" ++ [214] ++ js "RENING") = js "f" ++ [246] ++ js "rening".
Proof. reflexivity. Qed.

Example excluded_names :
  shouldSkipCompany (VStr (js "Exempel Holding AB")) = true
  /\ shouldSkipCompany (VStr (js "Bostadsr" ++ [228] ++ js "ttsf" ++ [214] ++ js "RENINGEN Eken")) = true
  /\ shouldSkipCompany (VStr (js "Exempel Teknik AB")) = false
  /\ shouldSkipCompany (VNum 7) = false.
Proof. repeat split; reflexivity. Qed.

Example normalized_names_and_ids :
  normalizeCompanyName (VStr (js " Alfa  2 AB ")) = js "alfaab"
  /\ normalizeId (VStr (js "  k1234/25 ")) = js "K1234-25"
  /\ normalizeId (VStr (js "k1/2/3")) = js "K1-2/3"
  /\ normalizeId (VNum 12) = [].
Proof. repeat split; reflexivity. Qed.

Example classified_urls :
  isKungorelsePage detail_url = true
  /\ isEnskildPage detail_url = false
  /\ isEnskildPage alias_url = true
  /\ isKungorelsePage alias_url = false
  /\ isKungorelsePage (js "https://poit.bolagsverket.se/poit-app/kungorelse/K100-25/ENSKILD/x") = false
  /\ re_kungorelse (js "https://poit.bolagsverket.se/poit-app/kungorelse/K100-25/ENSKILD/x") = true
  /\ re_enskild (js "https://poit.bolagsverket.se/poit-app/kungorelse/K100-25/ENSKILD/x") = false
  /\ extractKungorelseId detail_url = Some (js "K100-25")
  /\ extractKungorelseId alias_url = Some (js "K100-25")
  /\ extractKungorelseId (js "https://poit.bolagsverket.se/poit-app/kungorelse/k100-25") = None.
Proof. repeat split; reflexivity. Qed.

Example endpoint_paths :
  re_endpoint (js "/poit/rest/sokKungorelse") = true
  /\ re_endpoint (js "/poit/rest/SokEnskildKungorelse") = true
  /\ re_endpoint (js "/poit/rest/sok-kungorelse") = false
  /\ re_endpoint (js "/poit/rest/hamtaKungorelse") = false.
Proof. repeat split; reflexivity. Qed.

Example ignored_urls :
  shouldIgnoreUrl (js "CHROME-extension://abc/injected.js") = true
  /\ shouldIgnoreUrl data_url = true
  /\ shouldIgnoreUrl search_url = false
  /\ shouldIgnoreUrl [] = false.
Proof. repeat split; reflexivity. Qed.

End Evaluation.

(** ** The list sanitizer *)

Section Sanitizer.
Import Background SanitizerSpec.

Lemma entry_guard entry :
  negb (truthy entry) || negb (typeof_object entry) = negb (is_entry_object entry).
Proof. unfold is_entry_object. by destruct (truthy entry), (typeof_object entry). Qed.

(** A second pass from the same seen sets keeps everything the first
    pass kept: every decision depends on the entry and on the sets only,
    and the sets change at kept entries only. *)
Lemma sanitize_loop_fixed (items : list value) :
  forall seenIds seenNames,
    sanitize_loop (sanitize_loop items seenIds seenNames) seenIds seenNames
    = sanitize_loop items seenIds seenNames.
Proof.
  induction items as [|entry rest IH]; intros seenIds seenNames; [reflexivity|].
  cbn [sanitize_loop].
  destruct (negb (truthy entry) || negb (typeof_object entry)) eqn:Hobj.
  { cbn [sanitize_loop]. rewrite Hobj. f_equal. apply IH. }
  destruct (shouldSkipCompany (rawName entry)) eqn:Hskip; [apply IH|].
  destruct (nonempty (normalizeId (rawId entry))
            && has (normalizeId (rawId entry)) seenIds) eqn:Hid; [apply IH|].
  destruct (nonempty (normalizeCompanyName (rawName entry))
            && has (normalizeCompanyName (rawName entry)) seenNames) eqn:Hname; [apply IH|].
  cbn [sanitize_loop]. rewrite Hobj, Hskip, Hid, Hname. f_equal. apply IH.
Qed.

(** C4.  The list sanitizer is idempotent: applying [sanitizeCompanyList]
    to its own output returns that output unchanged, for every input (a
    list, or anything else, which it returns as it is). *)
Theorem sanitizeCompanyList_idempotent (items : value) :
  sanitizeCompanyList (sanitizeCompanyList items) = sanitizeCompanyList items.
Proof.
  destruct items; try reflexivity.
  cbn [sanitizeCompanyList]. f_equal. apply sanitize_loop_fixed.
Qed.

Lemma sanitize_loop_drops_excluded (pre post : list value) (entry : value) :
  is_entry_object entry = true ->
  shouldSkipCompany (rawName entry) = true ->
  forall seenIds seenNames,
    sanitize_loop (pre ++ entry :: post) seenIds seenNames
    = sanitize_loop (pre ++ post) seenIds seenNames.
Proof.
  intros Hobj Hskip. induction pre as [|e pre IH]; intros seenIds seenNames.
  - cbn [app sanitize_loop]. by rewrite entry_guard, Hobj, Hskip.
  - cbn [app sanitize_loop]. rewrite !IH. reflexivity.
Qed.

Lemma shouldSkip_truthy v : shouldSkipCompany v = true -> truthy v = true.
Proof. destruct v as [ | | | |s| | ]; try discriminate. by destruct s. Qed.

(** A name stored under any one of the four property names is the name
    the sanitizer examines. *)
Lemma rawName_with_field field text :
  field ∈ name_fields -> text <> [] -> rawName (with_field field text) = VStr text.
Proof.
  unfold name_fields, with_field, rawName, or_js, get.
  rewrite !elem_of_cons, elem_of_nil. intros Hfield Htext.
  destruct text as [|c text]; [done|].
  destruct Hfield as [->|[->|[->|[->|[]]]]];
    rewrite lookup_singleton_eq; cbn [default from_option id];
    rewrite !lookup_singleton_ne by (by vm_compute);
    reflexivity.
Qed.

(** C5 (amended).  The sanitizer drops every entry whose name contains,
    case insensitively, one of the exclusion keywords: the list is
    sanitized as if the entry were not there.  The name is the first
    truthy value among the properties [namn], [company_name],
    [companyName], [title], in this order, so a non-empty name stored
    under any one of the four is the name examined.  An entry named
    Exempel Holding AB is dropped and an entry named Exempel Teknik AB is
    kept, under each of the four property names. *)
Theorem sanitizer_drops_excluded_names :
  (forall pre post entry,
      is_entry_object entry = true ->
      shouldSkipCompany (rawName entry) = true ->
      sanitizeCompanyList (VArr (pre ++ entry :: post))
      = sanitizeCompanyList (VArr (pre ++ post)))
  /\ (forall field text, field ∈ name_fields -> text <> [] ->
        rawName (with_field field text) = VStr text)
  /\ Forall (fun field =>
       sanitizeCompanyList (VArr [with_field field (js "Exempel Holding AB")]) = VArr [])
       name_fields
  /\ Forall (fun field =>
       sanitizeCompanyList (VArr [with_field field (js "Exempel Teknik AB")])
       = VArr [with_field field (js "Exempel Teknik AB")])
       name_fields.
Proof.
  split.
  { intros pre post entry Hobj Hskip. cbn [sanitizeCompanyList]. f_equal.
    by apply sanitize_loop_drops_excluded. }
  split; [exact rawName_with_field|].
  split; repeat constructor; vm_compute; reflexivity.
Qed.

Lemma sanitizer_drops_excluded_names_witness :
  sanitizeCompanyList
    (VArr ([company (js "K1-25") (js "Alfa AB")]
           ++ company (js "K2-25") (js "Beta HOLDING AB")
           :: [company (js "K3-25") (js "Gamma AB")]))
  = sanitizeCompanyList
      (VArr ([company (js "K1-25") (js "Alfa AB")] ++ [company (js "K3-25") (js "Gamma AB")]))
  /\ rawName (with_field (js "title") (js "Exempel Holding AB"))
     = VStr (js "Exempel Holding AB").
Proof.
  split.
  - apply (proj1 sanitizer_drops_excluded_names); vm_compute; reflexivity.
  - apply (proj1 (proj2 sanitizer_drops_excluded_names)); [|discriminate].
    do 3 apply list_elem_of_further. apply list_elem_of_here.
Defined.

(** C5, as stated, fails: an entry whose [title] contains a keyword is
    kept when its [namn] is an ordinary name, since only the first truthy
    of the four properties is examined. *)
Lemma keyword_in_later_name_field_kept :
  get two_names (js "title") = VStr (js "Exempel Holding AB")
  /\ shouldSkipCompany (get two_names (js "title")) = true
  /\ rawName two_names = VStr (js "Exempel Teknik AB")
  /\ sanitizeCompanyList (VArr [two_names]) = VArr [two_names].
Proof. repeat split; vm_compute; reflexivity. Qed.

Lemma primitive_has_no_id entry :
  is_entry_object entry = false -> normalizeId (rawId entry) = [].
Proof. by destruct entry. Qed.

(** The ids of the kept entries are pairwise different and were not seen
    before. *)
Lemma kept_ids_fresh (items : list value) :
  forall seenIds seenNames,
    NoDup (kept_ids (sanitize_loop items seenIds seenNames))
    /\ forall x, x ∈ kept_ids (sanitize_loop items seenIds seenNames) -> x ∉ seenIds.
Proof.
  induction items as [|entry rest IH]; intros seenIds seenNames.
  { split; [constructor | intros x Hx; inversion Hx]. }
  cbn [sanitize_loop]. rewrite entry_guard.
  destruct (is_entry_object entry) eqn:Hobj; cbn [negb].
  2:{ unfold kept_ids. cbn [map List.filter]. rewrite (primitive_has_no_id _ Hobj).
      cbn [nonempty]. apply IH. }
  destruct (shouldSkipCompany (rawName entry)); [apply IH|].
  destruct (nonempty (normalizeId (rawId entry))
            && has (normalizeId (rawId entry)) seenIds) eqn:Hid; [apply IH|].
  destruct (nonempty (normalizeCompanyName (rawName entry)) && _); [apply IH|].
  destruct (IH (add_nonempty (normalizeId (rawId entry)) seenIds)
               (add_nonempty (normalizeCompanyName (rawName entry)) seenNames))
    as [Hnd Hfresh].
  unfold kept_ids in *. cbn [map List.filter]. unfold add_nonempty in *.
  destruct (nonempty (normalizeId (rawId entry))) eqn:Hne.
  - cbn [andb] in Hid. unfold has in Hid. apply bool_decide_eq_false in Hid. split.
    + apply NoDup_cons. split; [|exact Hnd].
      intros Hin. apply Hfresh in Hin. set_solver.
    + intros x Hx. apply elem_of_cons in Hx as [->|Hx]; [exact Hid|].
      apply Hfresh in Hx. set_solver.
  - split; [exact Hnd|]. intros x Hx. by apply Hfresh.
Qed.

(** An entry whose id has been seen is dropped, wherever it stands. *)
Lemma sanitize_loop_drops_seen (pre post : list value) (entry : value) :
  is_entry_object entry = true ->
  nonempty (normalizeId (rawId entry)) = true ->
  forall seenIds seenNames,
    normalizeId (rawId entry) ∈ seenIds ->
    sanitize_loop (pre ++ entry :: post) seenIds seenNames
    = sanitize_loop (pre ++ post) seenIds seenNames.
Proof.
  intros Hobj Hne. induction pre as [|e pre IH]; intros seenIds seenNames Hseen.
  - cbn [app sanitize_loop]. rewrite entry_guard, Hobj, Hne. cbn [negb andb].
    unfold has. rewrite bool_decide_eq_true_2 by done.
    by destruct (shouldSkipCompany (rawName entry)).
  - cbn [app sanitize_loop].
    rewrite !(IH seenIds seenNames) by done.
    rewrite !(IH (add_nonempty (normalizeId (rawId e)) seenIds)); [done|].
    unfold add_nonempty. destruct (nonempty (normalizeId (rawId e))); set_solver.
Qed.

Lemma first_entry_kept first rest :
  is_entry_object first = true -> shouldSkipCompany (rawName first) = false ->
  sanitize_loop (first :: rest) ∅ ∅
  = first :: sanitize_loop rest (add_nonempty (normalizeId (rawId first)) ∅)
                                (add_nonempty (normalizeCompanyName (rawName first)) ∅).
Proof.
  intros Hobj Hskip. cbn [sanitize_loop]. rewrite entry_guard, Hobj, Hskip. cbn [negb].
  unfold has. rewrite !bool_decide_eq_false_2 by set_solver.
  by rewrite !andb_false_r.
Qed.

(** C6 (amended).  The id normalization (trim, upper case, first slash to
    hyphen) maps K1234-25 and k1234/25 to K1234-25.  No two kept entries
    share a non-empty normalized id; when the first entry of a list is
    not excluded by its name, it is kept and every later entry with the
    same non-empty normalized id is dropped; of the two example entries
    only the first is kept. *)
Theorem sanitizer_dedups_by_id :
  normalizeId (VStr (js "K1234-25")) = js "K1234-25"
  /\ normalizeId (VStr (js "k1234/25")) = js "K1234-25"
  /\ (forall items, NoDup (kept_ids (sanitize_loop items ∅ ∅)))
  /\ (forall first mid second post,
        is_entry_object first = true ->
        shouldSkipCompany (rawName first) = false ->
        is_entry_object second = true ->
        nonempty (normalizeId (rawId first)) = true ->
        normalizeId (rawId second) = normalizeId (rawId first) ->
        exists out,
          sanitizeCompanyList (VArr (first :: mid ++ second :: post)) = VArr (first :: out)
          /\ sanitizeCompanyList (VArr (first :: mid ++ post)) = VArr (first :: out))
  /\ sanitizeCompanyList
       (VArr [with_field (js "kungorelseid") (js "K1234-25");
              with_field (js "kungorelseid") (js "k1234/25")])
     = VArr [with_field (js "kungorelseid") (js "K1234-25")].
Proof.
  split; [by vm_compute|]. split; [by vm_compute|].
  split; [intros items; apply kept_ids_fresh|].
  split; [|by vm_compute].
  intros first mid second post Hobj Hskip Hobj2 Hne Hsame.
  cbn [sanitizeCompanyList]. rewrite !first_entry_kept by done.
  eexists. split; [|reflexivity]. do 2 f_equal.
  apply sanitize_loop_drops_seen; [done|congruence|].
  rewrite Hsame. unfold add_nonempty. rewrite Hne. set_solver.
Qed.

Lemma sanitizer_dedups_by_id_witness :
  exists out,
    sanitizeCompanyList
      (VArr (company (js "K1234-25") (js "Alfa AB")
             :: [company (js "K7-25") (js "Beta AB")]
             ++ company (js "k1234/25") (js "Gamma AB") :: []))
    = VArr (company (js "K1234-25") (js "Alfa AB") :: out)
    /\ sanitizeCompanyList
         (VArr (company (js "K1234-25") (js "Alfa AB")
                :: [company (js "K7-25") (js "Beta AB")] ++ []))
       = VArr (company (js "K1234-25") (js "Alfa AB") :: out).
Proof.
  apply (proj1 (proj2 (proj2 (proj2 sanitizer_dedups_by_id)))); vm_compute; reflexivity.
Defined.

(** C6, as stated, fails: when the first of two entries with the same
    normalized id is excluded by its name, the second one is kept and the
    first is not; and two entries without an id, which both normalize to
    the empty id, are both kept. *)
Lemma same_id_first_excluded_second_kept :
  normalizeId (rawId (company (js "K1234-25") (js "Exempel Holding AB")))
  = normalizeId (rawId (company (js "k1234/25") (js "Exempel Teknik AB")))
  /\ sanitizeCompanyList
       (VArr [company (js "K1234-25") (js "Exempel Holding AB");
              company (js "k1234/25") (js "Exempel Teknik AB")])
     = VArr [company (js "k1234/25") (js "Exempel Teknik AB")]
  /\ normalizeId (rawId (with_field (js "namn") (js "Alfa AB")))
     = normalizeId (rawId (with_field (js "namn") (js "Beta AB")))
  /\ sanitizeCompanyList
       (VArr [with_field (js "namn") (js "Alfa AB"); with_field (js "namn") (js "Beta AB")])
     = VArr [with_field (js "namn") (js "Alfa AB"); with_field (js "namn") (js "Beta AB")].
Proof. repeat split; vm_compute; reflexivity. Qed.

(** C10.  For a payload object, [sanitizePayload] returns an object that
    agrees with the payload on every property other than [data]; when
    [data] is a list it becomes the sanitized list; when [data] is an
    object whose own [data] is a list, only that inner list is replaced by
    its sanitized version; in every other case the payload is returned
    unchanged.  (A payload that is not an object at all is returned as it
    is, see [sanitizePayload_primitive].) *)
Theorem sanitizePayload_frame (m : gmap jsstring value) :
  exists m', sanitizePayload (VObj m) = VObj m'
    /\ (forall k, k <> js "data" -> m' !! k = m !! k)
    /\ match m !! js "data" with
       | Some (VArr l) => m' !! js "data" = Some (VArr (sanitize_loop l ∅ ∅))
       | Some (VObj dm) =>
           match dm !! js "data" with
           | Some (VArr l) =>
               exists dm', m' !! js "data" = Some (VObj dm')
                 /\ (forall k, k <> js "data" -> dm' !! k = dm !! k)
                 /\ dm' !! js "data" = Some (VArr (sanitize_loop l ∅ ∅))
           | _ => m' = m
           end
       | _ => m' = m
       end.
Proof.
  unfold sanitizePayload. cbn [truthy typeof_object negb orb spread].
  destruct (m !! js "data") as [data|] eqn:Hdata; cbn [default from_option id].
  2:{ exists m. cbn. auto. }
  destruct data as [ | | b | n | s | l | dm]; cbn [isArray truthy typeof_object andb get];
    rewrite ?andb_false_r; cbn [andb];
    try (exists m; split; [reflexivity | split; [auto | reflexivity]]).
  - eexists. split; [reflexivity|]. split.
    + intros k Hk. by rewrite lookup_insert_ne.
    + by rewrite lookup_insert_eq.
  - destruct (dm !! js "data") as [inner|] eqn:Hinner; cbn [default from_option id isArray].
    2:{ exists m. split; [reflexivity | split; [auto | reflexivity]]. }
    destruct inner; cbn [isArray];
      try (exists m; split; [reflexivity | split; [auto | reflexivity]]).
    eexists. split; [reflexivity|]. split.
    + intros k Hk. by rewrite lookup_insert_ne.
    + eexists. split; [by rewrite lookup_insert_eq|]. cbn [spread sanitizeCompanyList]. split.
      * intros k Hk. by rewrite lookup_insert_ne.
      * by rewrite lookup_insert_eq.
Qed.

Lemma sanitizePayload_primitive (payload : value) :
  typeof_object payload = false -> sanitizePayload payload = payload.
Proof. intros H. unfold sanitizePayload. rewrite H. by rewrite orb_true_r. Qed.

(** The frame property at a payload as the hook layer builds it: the
    [url] comes back as it went in. *)
Lemma sanitizePayload_frame_witness :
  exists m',
    sanitizePayload
      (VObj (<[js "url" := VStr (js "https://poit.bolagsverket.se/poit/rest/sokKungorelse")]>
               {[ js "data" := VArr [company (js "K1-25") (js "Alfa AB");
                                     company (js "k1-25") (js "Alfa AB")] ]}))
    = VObj m'
    /\ m' !! js "url"
       = Some (VStr (js "https://poit.bolagsverket.se/poit/rest/sokKungorelse")).
Proof.
  destruct (sanitizePayload_frame
              (<[js "url" := VStr (js "https://poit.bolagsverket.se/poit/rest/sokKungorelse")]>
                 {[ js "data" := VArr [company (js "K1-25") (js "Alfa AB");
                                       company (js "k1-25") (js "Alfa AB")] ]}))
    as (m' & Heq & Hframe & _).
  exists m'. split; [exact Heq|].
  rewrite Hframe by (by vm_compute). by rewrite lookup_insert_eq.
Defined.

End Sanitizer.

(** ** The hook layer *)

Section Hooks.
Import Injected HookSpec.
Variable resolve : jsstring -> option (jsstring * jsstring).

Lemma isTargetUrl_off_target url : off_target resolve url -> isTargetUrl resolve url = false.
Proof.
  unfold isTargetUrl. intros [Hign|Hoff]; [by rewrite Hign|].
  destruct (shouldIgnoreUrl url); [done|].
  destruct (resolve url) as [[h p]|] eqn:Hres; [|done].
  destruct (Hoff h p eq_refl) as [Hh|Hp].
  - by rewrite bool_decide_eq_false_2.
  - rewrite Hp. by case_bool_decide.
Qed.

Lemma isTargetUrl_not_ignored url :
  isTargetUrl resolve url = true -> shouldIgnoreUrl url = false.
Proof. unfold isTargetUrl. by destruct (shouldIgnoreUrl url). Qed.

(** The [fetch] wrapper posts nothing for a call that is not of interest. *)
Lemma fetch_hook_off_target input result :
  off_target resolve (requestUrl input) -> fetch_hook resolve input result = [].
Proof.
  intros H. unfold fetch_hook. rewrite (isTargetUrl_off_target _ H).
  destruct (shouldIgnoreUrl _); [done|]. by destruct result.
Qed.

Lemma xhr_loadend_silent x r :
  loadend_handler resolve x r = [] -> xhr_loadend resolve x r = [].
Proof.
  intros H. unfold xhr_loadend. rewrite H.
  induction (listeners x) as [|n IH]; [done|]. exact IH.
Qed.

(** Neither do the XHR wrappers, when [open] recorded the URL of the call: *)
Lemma xhr_recorded_off_target url x r :
  shouldIgnoreUrl url = false -> off_target resolve url ->
  xhr_loadend resolve (xhr_send (xhr_open url x)) r = [].
Proof.
  intros Hign H. apply xhr_loadend_silent.
  unfold loadend_handler, xhr_send, xhr_open. rewrite Hign. cbn [kv_url].
  rewrite (isTargetUrl_off_target _ H). by rewrite orb_true_r.
Qed.

(** and for an ignored URL, when the request object is new. *)
Lemma xhr_fresh_ignored url r :
  shouldIgnoreUrl url = true -> xhr_loadend resolve (used_once url) r = [].
Proof.
  intros Hign. apply xhr_loadend_silent.
  unfold used_once, loadend_handler, xhr_send, xhr_open. by rewrite Hign.
Qed.

(** C3 fails on a request object that is used again.  [open] returns
    early for a URL on the ignore list and leaves the URL recorded by the
    earlier [open] in place: when the call to the data URL ends, both
    [loadend] listeners find the recorded search URL, which is a target,
    and each posts an intercepted call carrying the body of the data URL. *)
Theorem xhr_reuse_emits_for_ignored_url :
  resolve search_url = Some (TARGET_HOST, js "/poit/rest/sokKungorelse") ->
  shouldIgnoreUrl data_url = true
  /\ xhr_loadend resolve (used_twice search_url data_url) hello_result
     = [Intercepted search_url (raw_text (js "hello"));
        Intercepted search_url (raw_text (js "hello"))].
Proof.
  intros Hres. split; [by vm_compute|].
  unfold xhr_loadend, loadend_handler, isTargetUrl.
  replace (used_twice search_url data_url) with (Xhr (Some search_url) 2) by (by vm_compute).
  cbn [kv_url listeners]. rewrite Hres.
  replace (shouldIgnoreUrl search_url) with false by (by vm_compute).
  replace (re_endpoint (js "/poit/rest/sokKungorelse")) with true by (by vm_compute).
  rewrite bool_decide_eq_true_2 by done.
  by vm_compute.
Qed.

Lemma declares_json_nonempty ct : declares_json ct = true -> Background.nonempty ct = true.
Proof. by destruct ct. Qed.

Lemma fetch_hook_json input ct text v :
  isTargetUrl resolve (requestUrl input) = true ->
  declares_json ct = true ->
  fetch_hook resolve input
    (Some (Response (Some ct) (Some (Body (Some text) (Some v) false))))
  = [Intercepted (requestUrl input) v].
Proof.
  intros Ht Hct. unfold fetch_hook.
  rewrite (isTargetUrl_not_ignored _ Ht), Ht. cbn [content_type default from_option id stream].
  by rewrite Hct, (declares_json_nonempty _ Hct).
Qed.

Lemma fetch_hook_text input header text parsed :
  isTargetUrl resolve (requestUrl input) = true ->
  header_declares_json header = false ->
  fetch_hook resolve input (Some (Response header (Some (Body (Some text) parsed false))))
  = [Intercepted (requestUrl input) (raw_text text)].
Proof.
  intros Ht Hct. unfold fetch_hook, header_declares_json in *.
  rewrite (isTargetUrl_not_ignored _ Ht), Ht. cbn [content_type stream].
  by rewrite Hct, andb_false_r.
Qed.

(** One listener on a request object opened for a target URL. *)
Lemma xhr_loadend_once url r :
  isTargetUrl resolve url = true -> Background.nonempty url = true ->
  xhr_loadend resolve (used_once url) r = loadend_handler resolve (Xhr (Some url) 1) r.
Proof.
  intros Ht Hne. unfold xhr_loadend, used_once, xhr_send, xhr_open.
  rewrite (isTargetUrl_not_ignored _ Ht). cbn [listeners kv_url new_xhr replicate concat].
  by rewrite app_nil_r.
Qed.

(** What the XHR wrapper posts for a call of interest on a request
    object used once.  For a text response: the parsed value when the
    response declares JSON and the text parses to a value other than
    [null], the raw-text wrapper when the text does not parse or the
    response does not declare JSON.  For a JSON response type:
    [this.response] as it is unless that is [null].  For every other
    response type: nothing. *)
Lemma xhr_payload (url : jsstring) :
  isTargetUrl resolve url = true ->
  Background.nonempty url = true ->
  (forall r, text_response r = true ->
     xhr_loadend resolve (used_once url) r
     = if header_declares_json (content_type_header r) then
         match parsed r with
         | Some v => if nullish v then [] else [Intercepted url v]
         | None => [Intercepted url (raw_text (responseText r))]
         end
       else [Intercepted url (raw_text (responseText r))])
  /\ (forall r, text_response r = false -> json_response r = true ->
     xhr_loadend resolve (used_once url) r
     = if nullish (response_attr r) then [] else [Intercepted url (response_attr r)])
  /\ (forall r, text_response r = false -> json_response r = false ->
     xhr_loadend resolve (used_once url) r = []).
Proof.
  intros Ht Hne.
  split.
  { intros r Hr. rewrite xhr_loadend_once by done.
    unfold loadend_handler, text_response, header_declares_json, declares_json in *.
    cbn [kv_url]. rewrite Ht, Hne, Hr. cbn [negb orb].
    destruct (includes _ _); [|done]. by destruct (parsed r). }
  split.
  { intros r Hr Hj. rewrite xhr_loadend_once by done.
    unfold loadend_handler, text_response, json_response in *.
    cbn [kv_url]. by rewrite Ht, Hne, Hr, Hj. }
  intros r Hr Hj. rewrite xhr_loadend_once by done.
  unfold loadend_handler, text_response, json_response in *.
  cbn [kv_url]. by rewrite Ht, Hne, Hr, Hj.
Qed.

(** C8 fails in the [fetch] wrapper.  For a call of interest whose
    response declares JSON and carries a body that is not JSON, the
    wrapper posts nothing: [json()] has read the stream when it rejects,
    so the [text()] of the fallback in the [catch] callback rejects too,
    and the raw-text wrapper that the fallback was written to post never
    goes out.  The same fallback does post when it finds the body
    unread, and it does work where nothing was read: a response without
    a body is posted as the raw-text wrapper of the empty string.  The
    XHR wrapper, given the same text under a declared JSON type, posts
    the raw-text wrapper. *)
Theorem fetch_json_fallback_dead (input : fetch_input) (ct txt : jsstring) :
  isTargetUrl resolve (requestUrl input) = true ->
  declares_json ct = true ->
  fetch_hook resolve input
    (Some (Response (Some ct) (Some (Body (Some txt) None false)))) = []
  /\ text_then_save (requestUrl input) (snd (json (Some (Body (Some txt) None false)))) = []
  /\ text_then_save (requestUrl input) (Some (Body (Some txt) None false))
     = [Intercepted (requestUrl input) (raw_text txt)]
  /\ fetch_hook resolve input (Some (Response (Some ct) None))
     = [Intercepted (requestUrl input) (raw_text [])]
  /\ (Background.nonempty (requestUrl input) = true ->
      forall attr,
        xhr_loadend resolve (used_once (requestUrl input))
          (XhrResult [] txt None attr (Some ct))
        = [Intercepted (requestUrl input) (raw_text txt)]).
Proof.
  intros Ht Hct.
  pose proof (isTargetUrl_not_ignored _ Ht) as Hign.
  pose proof (declares_json_nonempty _ Hct) as Hne.
  split; [|split; [done|split; [done|split]]].
  - unfold fetch_hook. rewrite Hign, Ht. cbn [content_type default from_option id stream].
    by rewrite Hct, Hne.
  - unfold fetch_hook. rewrite Hign, Ht. cbn [content_type default from_option id stream].
    by rewrite Hct, Hne.
  - intros Hurl attr.
    destruct (xhr_payload _ Ht Hurl) as (Htext & _).
    rewrite Htext by done. unfold header_declares_json.
    cbn [content_type_header default from_option id parsed responseText]. by rewrite Hct.
Qed.

End Hooks.

Section HookExamples.
Import Injected HookSpec.

Lemma example_resolve_search :
  example_resolve search_url = Some (TARGET_HOST, js "/poit/rest/sokKungorelse").
Proof. reflexivity. Qed.

Lemma search_url_is_target : isTargetUrl example_resolve search_url = true.
Proof. by vm_compute. Qed.

Lemma xhr_reuse_witness :
  shouldIgnoreUrl data_url = true
  /\ xhr_loadend example_resolve (used_twice search_url data_url) hello_result
     = [Intercepted search_url (raw_text (js "hello"));
        Intercepted search_url (raw_text (js "hello"))].
Proof. apply (xhr_reuse_emits_for_ignored_url example_resolve). reflexivity. Defined.

(** Responses of interest for which the hooks post nothing, as they
    are written to: an XHR response of type json whose body did not
    parse ([response] is [null]); an XHR response of type blob; an XHR
    text response whose JSON text is null; and a [fetch] response whose
    body cannot be read. *)
Lemma silent_responses :
  isTargetUrl example_resolve search_url = true
  /\ xhr_loadend example_resolve (used_once search_url) unparsed_json_result = []
  /\ xhr_loadend example_resolve (used_once search_url) blob_result = []
  /\ xhr_loadend example_resolve (used_once search_url) json_null_result = []
  /\ fetch_hook example_resolve (UrlString search_url) (Some broken_stream) = [].
Proof. repeat split; by vm_compute. Qed.

Lemma fetch_json_fallback_witness :
  fetch_hook example_resolve (UrlString search_url) (Some html_as_json) = []
  /\ fetch_hook example_resolve (UrlString search_url) (Some no_content)
     = [Intercepted search_url (raw_text [])]
  /\ xhr_loadend example_resolve (used_once search_url)
       (XhrResult [] (js "<html>") None VUndefined (Some (js "application/json")))
     = [Intercepted search_url (raw_text (js "<html>"))].
Proof.
  destruct (fetch_json_fallback_dead example_resolve (UrlString search_url)
              (js "application/json") (js "<html>"))
    as (Hdead & _ & _ & Hnull & Hxhr).
  - by vm_compute.
  - by vm_compute.
  - split; [exact Hdead|]. split; [exact Hnull|]. apply Hxhr. reflexivity.
Defined.

End HookExamples.

(** ** The page orchestrator: safety gate and dedup state *)

Section CaptureInvariant.
Import Background Content CaptureSpec.

Lemma same_capture_state_inv s s' :
  same_capture_state s s' -> capture_inv s -> capture_inv s'.
Proof.
  intros (Hc & Hp & Ho) [H1 H2 H3 H4].
  split; rewrite ?Hc, ?Hp, ?Ho; assumption.
Qed.

Lemma same_capture_trans s1 s2 s3 :
  same_capture_state s1 s2 -> same_capture_state s2 s3 -> same_capture_state s1 s3.
Proof. intros (?&?&?) (?&?&?). repeat split; congruence. Qed.

Lemma resolved_same k s : same_capture_state s (resolved k s).
Proof. destruct k; by repeat split. Qed.

Lemma handleEnskildPage_same k s : same_capture_state s (handleEnskildPage k s).
Proof.
  unfold handleEnskildPage.
  destruct (negb (isEnskildPage (href s))); [apply resolved_same|].
  destruct (has_body (doc s) && enskildHandled s); [apply resolved_same|].
  by destruct (has_body (doc s)).
Qed.

Lemma enskildDwell_same k s : same_capture_state s (enskildDwell k s).
Proof.
  unfold enskildDwell. destruct (first_link selectors (doc s)); [by repeat split|].
  apply resolved_same.
Qed.

Lemma enskildClick_same link k s : same_capture_state s (enskildClick link k s).
Proof.
  unfold enskildClick.
  eapply same_capture_trans; [|apply resolved_same]. by repeat split.
Qed.

Lemma startObserver_same s : same_capture_state s (startObserver s).
Proof. unfold startObserver. by destruct (has_body (doc s)). Qed.

(** Queuing: only an id that is in neither set enters [pendingCaptures]. *)
Lemma captureKungorelseData_inv s : capture_inv s -> capture_inv (captureKungorelseData s).
Proof.
  intros Hinv. unfold captureKungorelseData.
  destruct (urlContainsEnskild (href s)); [done|].
  destruct (negb (isKungorelsePage (href s)) || isEnskildPage (href s)); [done|].
  destruct (extractKungorelseId (href s)) as [kid|]; [|done].
  set (nid := replace_first (js "/") (js "-") kid).
  destruct (has nid (capturedKungorelseIds s)) eqn:Hcap; [done|].
  destruct (has nid (pendingCaptures s)); [done|]. cbn [orb].
  apply bool_decide_eq_false in Hcap.
  destruct Hinv as [H1 H2 H3 H4]. split; cbn; try assumption.
  set_solver.
Qed.

Lemma unqueue_inv nid s : capture_inv s -> capture_inv (unqueue nid s).
Proof.
  intros [H1 H2 H3 H4]. split; cbn; try assumption. set_solver.
Qed.

(** The capture check: a record goes out only for an id that was not
    captured and from a URL that passed the final check; the id moves
    from one set to the other. *)
Lemma captureCheck_inv nid now s : capture_inv s -> capture_inv (captureCheck nid now s).
Proof.
  intros Hinv. unfold captureCheck.
  destruct (negb (re_kungorelse (href s)) || re_enskild (href s)); [by apply unqueue_inv|].
  destruct (has nid (capturedKungorelseIds s)) eqn:Hcap; [by apply unqueue_inv|].
  destruct (length _ <? 500)%nat; [by apply unqueue_inv|].
  destruct ((2 <? linkCount (doc s))%nat && _); [by apply unqueue_inv|].
  destruct (urlContainsEnskild (href s)) eqn:Hurl; [by apply unqueue_inv|].
  apply bool_decide_eq_false in Hcap.
  destruct Hinv as [H1 H2 H3 H4]. split; cbn -[urlContainsEnskild].
  - set_solver.
  - intros x Hx. apply elem_of_cons in Hx as [->|Hx]; [set_solver|].
    apply H2 in Hx. set_solver.
  - apply NoDup_cons. split; [|assumption]. intros Hin. by apply H2 in Hin.
  - intros m Hm. apply elem_of_cons in Hm as [->|Hm]; [|by apply H4].
    cbn -[urlContainsEnskild]. by rewrite Hurl.
Qed.

Lemma bridge_inv same data s : capture_inv s -> capture_inv (bridge same data s).
Proof.
  intros Hinv. unfold bridge.
  destruct (negb same); [done|]. destruct (_ || _); [done|]. destruct (_ && _); [|done].
  destruct Hinv as [H1 H2 H3 H4]. split; cbn; try assumption.
  intros m Hm. apply elem_of_cons in Hm as [->|Hm]; [done|by apply H4].
Qed.

Lemma poll_inv s : capture_inv s -> capture_inv (poll s).
Proof.
  intros Hinv. unfold poll. case_bool_decide; [done|].
  set (s2 := if has_body _ then _ else _).
  assert (capture_inv s2) as Hs2.
  { eapply same_capture_state_inv; [|exact Hinv]. subst s2.
    by destruct (has_body _). }
  destruct (re_enskild (href s)).
  - eapply same_capture_state_inv; [apply handleEnskildPage_same|done].
  - destruct (re_kungorelse (href s)); [by apply captureKungorelseData_inv|done].
Qed.

Lemma run_task_inv t now s : capture_inv s -> capture_inv (run_task t now s).
Proof.
  intros Hinv. destruct t; cbn [run_task].
  - destruct (isEnskildPage (href s)).
    + eapply same_capture_state_inv; [apply handleEnskildPage_same|done].
    + destruct (isKungorelsePage (href s)); [by apply captureKungorelseData_inv|done].
  - eapply same_capture_state_inv; [apply startObserver_same|done].
  - by apply captureCheck_inv.
  - destruct (_ && _); [by apply captureKungorelseData_inv|done].
  - by apply captureKungorelseData_inv.
  - eapply same_capture_state_inv; [apply enskildDwell_same|done].
  - eapply same_capture_state_inv; [apply enskildClick_same|done].
Qed.

Lemma step_inv ev s : capture_inv s -> capture_inv (step ev s).
Proof.
  intros Hinv. destruct ev; cbn [step].
  - eapply same_capture_state_inv; [|exact Hinv]. by repeat split.
  - eapply same_capture_state_inv; [|exact Hinv]. by repeat split.
  - by apply bridge_inv.
  - destruct (monitoring s); [by apply poll_inv|done].
  - destruct (observing s); [|done]. unfold observe.
    destruct (re_enskild (href s)); [|done].
    eapply same_capture_state_inv; [apply handleEnskildPage_same|done].
  - destruct (tasks s !! i) as [t|]; [|done]. apply run_task_inv.
    eapply same_capture_state_inv; [|exact Hinv]. by repeat split.
Qed.

Lemma run_inv evs : forall s, capture_inv s -> capture_inv (run s evs).
Proof.
  induction evs as [|ev evs IH]; intros s Hinv; [done|].
  cbn. apply IH. by apply step_inv.
Qed.

Lemma load_inv href0 d loading : capture_inv (load href0 d loading).
Proof.
  unfold load.
  set (s0 := State _ _ _ _ _ _ _ _ _ _ _).
  assert (capture_inv s0) as H0.
  { split; cbn; [set_solver | intros x Hx; inversion Hx | constructor
                 | intros m Hm; inversion Hm]. }
  set (s1 := if _ || _ then _ else s0).
  assert (capture_inv s1) as H1.
  { subst s1. destruct (_ || _); [|done]. destruct loading.
    - eapply same_capture_state_inv; [|exact H0]. by repeat split.
    - eapply same_capture_state_inv; [apply startObserver_same|].
      eapply same_capture_state_inv; [|exact H0]. by repeat split. }
  destruct (isEnskildPage href0); [|done].
  eapply same_capture_state_inv; [apply handleEnskildPage_same|done].
Qed.

(** The invariant holds after every event of every run of the script. *)
Lemma reachable_inv href0 d loading evs : capture_inv (run (load href0 d loading) evs).
Proof. apply run_inv, load_inv. Qed.

Lemma capture_rejects_alias s :
  urlContainsEnskild (href s) = true -> captureKungorelseData s = s.
Proof. intros H. unfold captureKungorelseData. by rewrite H. Qed.

Lemma check_rejects_alias nid now s :
  urlContainsEnskild (href s) = true -> captureCheck nid now s = unqueue nid s.
Proof.
  intros H. unfold captureCheck. rewrite H.
  by case_ifs.
Qed.

Lemma record_value_url r : get (record_value r) (js "url") = VStr (url r).
Proof. unfold record_value, get. by rewrite lookup_insert_eq. Qed.

Lemma relay_blocks_alias payload u :
  get payload (js "url") = VStr u -> urlContainsEnskild u = true ->
  postKungorelseToLocal payload = Blocked.
Proof.
  intros Hget Hu. unfold postKungorelseToLocal. rewrite Hget, Hu.
  assert (truthy payload = true) as ->.
  { destruct payload; try discriminate Hget. done. }
  assert (truthy (VStr u) = true) as ->.
  { destruct u; [discriminate Hu|done]. }
  done.
Qed.

(** The relay hands a capture message to [postKungorelseToLocal]. *)
Lemma onMessage_capture r :
  onMessage (message_value (KV_SAVE_KUNGORELSE r))
  = requests_of (postKungorelseToLocal (record_value r)).
Proof.
  unfold onMessage, message_value, is_type, get. cbn [truthy typeof_object negb orb].
  rewrite !lookup_insert_eq. cbn [default from_option id].
  rewrite bool_decide_eq_false_2 by (by vm_compute).
  rewrite bool_decide_eq_true_2 by done.
  rewrite lookup_insert_ne by (by vm_compute). rewrite lookup_insert_eq.
  done.
Qed.

(** A bridged list payload goes to the other endpoint. *)
Lemma onMessage_json p :
  onMessage (message_value (KV_SAVE_JSON p))
  = if truthy p then [Request (js "/save") (sanitizePayload p)] else [].
Proof.
  unfold onMessage, message_value, is_type, get. cbn [truthy typeof_object negb orb].
  rewrite !lookup_insert_eq. cbn [default from_option id].
  rewrite bool_decide_eq_true_2 by done.
  rewrite lookup_insert_ne by (by vm_compute). rewrite lookup_insert_eq.
  cbn [default from_option id andb]. by destruct (truthy p).
Qed.

Lemma postKungorelse_record r :
  postKungorelseToLocal (record_value r)
  = if urlContainsEnskild (url r) then Blocked
    else Posted (Request (js "/save_kungorelse") (record_value r)).
Proof.
  unfold postKungorelseToLocal. rewrite record_value_url. cbn [truthy record_value andb].
  destruct (url r) as [|c u] eqn:Hu; [by vm_compute|]. done.
Qed.

(** From the orchestrator through the relay: whatever is posted to the
    capture endpoint is a record whose url does not match. *)
Lemma pipeline_safe href0 d loading evs m req :
  m ∈ outbox (run (load href0 d loading) evs) ->
  req ∈ onMessage (message_value m) ->
  endpoint req = js "/save_kungorelse" ->
  exists r, m = KV_SAVE_KUNGORELSE r /\ body req = record_value r
            /\ urlContainsEnskild (url r) = false.
Proof.
  intros Hm Hreq Hend.
  pose proof (inv_safe _ (reachable_inv href0 d loading evs) _ Hm) as Hsafe.
  destruct m as [p|r].
  - rewrite onMessage_json in Hreq. destruct (truthy p); [|inversion Hreq].
    apply list_elem_of_singleton in Hreq. subst req. by vm_compute in Hend.
  - exists r. cbn [safe_message] in Hsafe. apply negb_true_iff in Hsafe.
    rewrite onMessage_capture, postKungorelse_record, Hsafe in Hreq.
    apply list_elem_of_singleton in Hreq. by subst req.
Qed.

(** C1.  A capture record whose url contains /enskild/ (in any letter
    case) is never forwarded.  On a page with such a URL
    [captureKungorelseData] returns before queuing anything; the callback
    of the capture-check timer gives the capture up and sends nothing; in
    every run of the script, every capture record handed to the relay
    carries a URL that passed the last check before forwarding; the
    relay drops a capture record with such a url, and the message that
    carries it, before any network call; and so every request a run of
    the script leads to at the capture endpoint of the collector carries
    a record whose url does not match. *)
Theorem alias_url_never_forwarded :
  (forall s, urlContainsEnskild (href s) = true -> captureKungorelseData s = s)
  /\ (forall s normalizedId now, urlContainsEnskild (href s) = true ->
        captureCheck normalizedId now s = unqueue normalizedId s)
  /\ (forall href0 d loading evs r,
        KV_SAVE_KUNGORELSE r ∈ outbox (run (load href0 d loading) evs) ->
        urlContainsEnskild (url r) = false)
  /\ (forall payload u, get payload (js "url") = VStr u -> urlContainsEnskild u = true ->
        postKungorelseToLocal payload = Blocked)
  /\ (forall r, urlContainsEnskild (url r) = true ->
        onMessage (message_value (KV_SAVE_KUNGORELSE r)) = [])
  /\ (forall href0 d loading evs m req,
        m ∈ outbox (run (load href0 d loading) evs) ->
        req ∈ onMessage (message_value m) ->
        endpoint req = js "/save_kungorelse" ->
        exists r, m = KV_SAVE_KUNGORELSE r /\ body req = record_value r
                  /\ urlContainsEnskild (url r) = false).
Proof.
  split; [exact capture_rejects_alias|].
  split; [intros; by apply check_rejects_alias|].
  split.
  { intros href0 d loading evs r Hr.
    apply (inv_safe _ (reachable_inv href0 d loading evs)) in Hr.
    cbn [safe_message] in Hr. by apply negb_true_iff. }
  split; [exact relay_blocks_alias|].
  split; [|exact pipeline_safe].
  intros r Hr. rewrite onMessage_capture.
  by rewrite (relay_blocks_alias _ _ (record_value_url r) Hr).
Qed.

Lemma NoDup_count_le_1 (x : jsstring) (l : list jsstring) :
  NoDup l -> (length (List.filter (fun y => bool_decide (y = x)) l) <= 1)%nat.
Proof.
  induction 1 as [|y l Hy Hnd IH]; cbn; [lia|].
  case_bool_decide as Hyx; [|done]. subst y. cbn.
  assert (List.filter (fun y => bool_decide (y = x)) l = []) as ->; [|cbn; lia].
  clear -Hy. induction l as [|z l IH]; [done|]. cbn.
  apply not_elem_of_cons in Hy as [Hne Hy].
  rewrite bool_decide_eq_false_2 by congruence. by apply IH.
Qed.

(** C2.  In every run of the script from its load (any page, any
    sequence of navigations, DOM changes, messages, poller ticks, observer
    firings and timer firings), at most one capture record is sent for
    any id; and after every prefix of the run, that is at every boundary
    between two callbacks, the captured set and the pending set are
    disjoint. *)
Theorem at_most_one_capture_per_id href0 d loading (evs : list event)
  (normalizedId : jsstring) :
  (capture_count normalizedId (outbox (run (load href0 d loading) evs)) <= 1)%nat
  /\ forall k,
       capturedKungorelseIds (run (load href0 d loading) (take k evs))
       ## pendingCaptures (run (load href0 d loading) (take k evs)).
Proof.
  split.
  - apply NoDup_count_le_1.
    apply (inv_sent_once _ (reachable_inv href0 d loading evs)).
  - intros k. apply (inv_disjoint _ (reachable_inv href0 d loading (take k evs))).
Qed.

End CaptureInvariant.

(** ** A run of the pipeline *)

Section Scenario.
Import Background Content CaptureSpec.

(** Exactly one record goes out, with the id and the detail URL, after
    exactly one click; the relay posts it to the collector. *)
Example scenario_captures_once :
  capture_count (js "K100-25") (outbox (run scenario_start alias_to_detail)) = 1%nat
  /\ map (fun m => match m with
                   | KV_SAVE_KUNGORELSE r => Some (url r, kungorelseId r)
                   | KV_SAVE_JSON _ => None
                   end) (outbox (run scenario_start alias_to_detail))
     = [Some (detail_url, js "K100-25")]
  /\ length (clicks (run scenario_start (take 2 alias_to_detail))) = 1%nat
  /\ map (fun m => length (onMessage (message_value m)))
         (outbox (run scenario_start alias_to_detail)) = [1%nat].
Proof. repeat split; by vm_compute. Qed.

Lemma alias_url_never_forwarded_witness :
  captureKungorelseData scenario_start = scenario_start
  /\ outbox (captureCheck (js "K100-25") clock scenario_start) = []
  /\ onMessage (message_value
       (KV_SAVE_KUNGORELSE (Capture alias_url (js "K100-25") [] [] clock []))) = [].
Proof.
  destruct alias_url_never_forwarded as (Hqueue & Hcheck & _ & _ & Hrelay & _).
  split; [apply Hqueue; by vm_compute|].
  split; [rewrite Hcheck by (by vm_compute); reflexivity|].
  apply Hrelay. by vm_compute.
Defined.

Lemma at_most_one_capture_witness :
  (capture_count (js "K100-25") (outbox (run scenario_start alias_to_detail)) <= 1)%nat.
Proof.
  apply (at_most_one_capture_per_id alias_url (page_with 600 1) false alias_to_detail
           (js "K100-25")).
Defined.

End Scenario.

(** ** Content readiness *)

Section Readiness.
Import Background Content CaptureSpec.

Lemma startsWith_ci_app p q s :
  startsWith_ci (p ++ q) s = startsWith_ci p s && startsWith_ci q (drop (length p) s).
Proof.
  revert s. induction p as [|a p IH]; intros s; [done|].
  destruct s as [|b s]; cbn [app startsWith_ci length drop].
  - by destruct q.
  - rewrite IH. by rewrite andb_assoc.
Qed.

(** The two anchored patterns exclude each other. *)
Lemma detail_url_not_alias u : re_kungorelse u = true -> re_enskild u = false.
Proof.
  unfold re_kungorelse, re_enskild. intros H. apply andb_true_iff in H as [H _].
  change kungorelse_prefix
    with (js "https://poit.bolagsverket.se/poit-app/" ++ js "kungorelse/K") in H.
  change (js "https://poit.bolagsverket.se/poit-app/enskild/")
    with (js "https://poit.bolagsverket.se/poit-app/" ++ js "enskild/").
  rewrite startsWith_ci_app in *. apply andb_true_iff in H as [-> H]. cbn [andb].
  destruct (drop _ u) as [|c r]; [done|].
  cbn [js startsWith_ci] in *. apply andb_true_iff in H as [H _].
  apply N.eqb_eq in H. unfold eq_ci. rewrite <- H. done.
Qed.

Lemma isKungorelsePage_inv u :
  isKungorelsePage u = true -> urlContainsEnskild u = false /\ re_kungorelse u = true.
Proof.
  unfold isKungorelsePage, urlContainsEnskild.
  by destruct (includes (js "/enskild/") (toLowerCase u)).
Qed.





End Readiness.

(** ** Alias pages: the handled flag and the click *)

Section AliasClick.
Import Background Content CaptureSpec.

Lemma in_flight_count_app ts t :
  in_flight_count (ts ++ [t]) = (in_flight_count ts + (if in_flight t then 1 else 0))%nat.
Proof.
  unfold in_flight_count. rewrite List.filter_app, length_app. cbn.
  by destruct (in_flight t).
Qed.

Lemma in_flight_count_delete ts i t :
  ts !! i = Some t ->
  in_flight_count ts = (in_flight_count (delete i ts) + (if in_flight t then 1 else 0))%nat.
Proof.
  revert i. induction ts as [|a ts IH]; intros [|i] H; try discriminate.
  - injection H as ->. unfold in_flight_count. cbn. destruct (in_flight t); cbn; lia.
  - apply IH in H. unfold in_flight_count in *.
    change (delete (S i) (a :: ts)) with (a :: delete i ts). cbn [List.filter].
    destruct (in_flight a); cbn [length]; lia.
Qed.

Lemma same_click_refl s : same_click_state s s.
Proof. by repeat split. Qed.

Lemma resolved_same_click k s : same_click_state s (resolved k s).
Proof.
  destruct k; repeat split; cbn [resolved add_task set_tasks tasks];
    rewrite ?in_flight_count_app; cbn; lia.
Qed.

Lemma captureKungorelseData_same_click s : same_click_state s (captureKungorelseData s).
Proof.
  unfold captureKungorelseData.
  repeat match goal with
         | |- context [if ?b then _ else _] => destruct b
         | |- context [match ?o with Some _ => _ | None => _ end] => destruct o
         end; try apply same_click_refl.
  repeat split. cbn. rewrite in_flight_count_app. cbn. lia.
Qed.

Lemma captureCheck_same_click nid now s : same_click_state s (captureCheck nid now s).
Proof.
  unfold captureCheck.
  case_ifs;
    by repeat split.
Qed.

Lemma startObserver_same_click s : same_click_state s (startObserver s).
Proof.
  unfold startObserver. destruct (has_body (doc s)); repeat split.
  cbn. rewrite in_flight_count_app. cbn. lia.
Qed.

Lemma bridge_same_click same data s : same_click_state s (bridge same data s).
Proof.
  unfold bridge.
  case_ifs;
    by repeat split.
Qed.

Lemma same_click_budget s s' :
  same_click_state s s' ->
  click_budget s' = click_budget s /\ has_body (doc s') = has_body (doc s).
Proof. intros (Hc & Hh & Ht & Hd). unfold click_budget. by rewrite Hc, Hh, Ht, Hd. Qed.

(** With a body, an invocation that gets past the guard uses up the one
    click the unset flag stands for. *)
Lemma handleEnskildPage_budget k s :
  has_body (doc s) = true ->
  click_budget (handleEnskildPage k s) = click_budget s
  /\ doc (handleEnskildPage k s) = doc s.
Proof.
  intros Hbody. unfold handleEnskildPage. rewrite Hbody. cbn [andb].
  destruct (negb (isEnskildPage (href s))).
  { destruct (resolved_same_click k s) as (?&?&?&?). split; [|done].
    by apply same_click_budget. }
  destruct (enskildHandled s) eqn:Hflag.
  { destruct (resolved_same_click k s) as (?&?&?&?). split; [|done].
    by apply same_click_budget. }
  split; [|done]. unfold click_budget. cbn. rewrite Hflag, in_flight_count_app. cbn. lia.
Qed.

Lemma step_budget ev s :
  has_body (doc s) = true -> keeps_body ev = true ->
  (click_budget (step ev s) <= click_budget s + (if detects_change ev s then 1 else 0))%nat
  /\ has_body (doc (step ev s)) = true.
Proof.
  intros Hbody Hkeep. destruct ev; cbn [step detects_change keeps_body] in *.
  - split; [unfold click_budget; cbn; lia|done].
  - split; [|done]. unfold click_budget. cbn. rewrite Hbody, Hkeep, !andb_true_r. lia.
  - destruct (same_click_budget _ _ (bridge_same_click same_window data s)) as [-> ->].
    split; [lia|done].
  - destruct (monitoring s); cbn [andb]; [|split; [lia|done]].
    unfold poll. case_bool_decide as Hurl; cbn [negb]; [split; [lia|done]|].
    cbn [set_lastUrl doc]. rewrite Hbody.
    set (s2 := set_handled false (set_lastUrl (href s) s)).
    assert (click_budget s2 <= click_budget s + 1)%nat as Hs2.
    { unfold click_budget. cbn. destruct (enskildHandled s); lia. }
    assert (has_body (doc s2) = true) as Hb2 by done.
    destruct (re_enskild (href s)).
    + destruct (handleEnskildPage_budget PollFollowup s2 Hb2) as [-> ->]. by split.
    + destruct (re_kungorelse (href s)); [|by split].
      destruct (same_click_budget _ _ (captureKungorelseData_same_click s2)) as [-> ->].
      by split.
  - destruct (observing s); [|split; [lia|done]]. unfold observe.
    destruct (re_enskild (href s)); [|split; [lia|done]].
    destruct (handleEnskildPage_budget NoFollowup s Hbody) as [-> ->]. split; [lia|done].
  - destruct (tasks s !! i) as [t|] eqn:Ht; [|split; [lia|done]].
    set (s1 := set_tasks (delete i (tasks s)) s).
    assert (click_budget s = click_budget s1 + (if in_flight t then 1 else 0))%nat as Hs1.
    { unfold click_budget. cbn. rewrite (in_flight_count_delete _ _ _ Ht). lia. }
    assert (has_body (doc s1) = true) as Hb1 by done.
    destruct t; cbn [run_task in_flight] in *.
    + destruct (isEnskildPage (href s1)).
      * destruct (handleEnskildPage_budget InitialFollowup s1 Hb1) as [-> ->].
        split; [lia|done].
      * destruct (isKungorelsePage (href s1)); [|split; [lia|done]].
        destruct (same_click_budget _ _ (captureKungorelseData_same_click s1)) as [-> ->].
        split; [lia|done].
    + destruct (same_click_budget _ _ (startObserver_same_click s1)) as [-> ->].
      split; [lia|done].
    + destruct (same_click_budget _ _ (captureCheck_same_click normalizedId now s1))
        as [-> ->].
      split; [lia|done].
    + destruct (_ && _); [|split; [lia|done]].
      destruct (same_click_budget _ _ (captureKungorelseData_same_click s1)) as [-> ->].
      split; [lia|done].
    + destruct (same_click_budget _ _ (captureKungorelseData_same_click s1)) as [-> ->].
      split; [lia|done].
    + unfold enskildDwell. destruct (first_link selectors (doc s1)).
      * split; [|done]. unfold click_budget in *. cbn in *.
        rewrite in_flight_count_app. cbn. lia.
      * destruct (same_click_budget _ _ (resolved_same_click k s1)) as [-> ->].
        split; [lia|done].
    + unfold enskildClick.
      destruct (same_click_budget _ _ (resolved_same_click k (push_click link s1)))
        as [-> ->].
      split; [|done]. unfold click_budget in *. cbn in *. lia.
Qed.

Lemma run_budget evs :
  forall s, has_body (doc s) = true -> forallb keeps_body evs = true ->
    (click_budget (run s evs) <= click_budget s + url_changes s evs)%nat.
Proof.
  induction evs as [|ev evs IH]; intros s Hbody Hkeep; [cbn; lia|].
  change (run s (ev :: evs)) with (run (step ev s) evs). cbn [url_changes].
  cbn in Hkeep. apply andb_true_iff in Hkeep as [Hev Hkeep].
  destruct (step_budget ev s Hbody Hev) as [Hstep Hb].
  specialize (IH _ Hb Hkeep). destruct (detects_change ev s); lia.
Qed.

Lemma load_budget href0 d loading :
  has_body d = true ->
  click_budget (load href0 d loading) = 1%nat
  /\ has_body (doc (load href0 d loading)) = true.
Proof.
  intros Hbody. unfold load.
  set (s0 := State _ _ _ _ _ _ _ _ _ _ _).
  set (s1 := if _ || _ then _ else s0).
  assert (click_budget s1 = 1%nat /\ doc s1 = d) as [H1 Hd1].
  { subst s1. destruct (_ || _); [|done]. destruct loading; [done|].
    unfold startObserver. cbn [doc add_task set_tasks set_monitoring s0]. by rewrite Hbody. }
  assert (has_body (doc s1) = true) as Hb1 by (by rewrite Hd1).
  destruct (isEnskildPage href0); [|by rewrite Hd1].
  destruct (handleEnskildPage_budget NoFollowup s1 Hb1) as [-> ->]. by rewrite Hd1.
Qed.

(** While the flag is set on an existing body, an invocation only lets
    its caller go on. *)
Lemma handled_page_not_handled_again k s :
  has_body (doc s) = true -> enskildHandled s = true ->
  handleEnskildPage k s = resolved k s.
Proof.
  intros Hbody Hflag. unfold handleEnskildPage. rewrite Hbody, Hflag.
  by destruct (negb (isEnskildPage (href s))).
Qed.

Lemma resolved_no_click k s :
  clicks (resolved k s) = clicks s /\ href (resolved k s) = href s
  /\ in_flight_count (tasks (resolved k s)) = in_flight_count (tasks s).
Proof.
  destruct (resolved_same_click k s) as (Hc & _ & Ht & _).
  repeat split; [done| |done]. by destruct k.
Qed.

Lemma handleEnskildPage_keeps_flag k s :
  enskildHandled s = true -> enskildHandled (handleEnskildPage k s) = true.
Proof.
  intros Hflag. unfold handleEnskildPage.
  destruct (resolved_same_click k s) as (_ & Hr & _).
  destruct (negb (isEnskildPage (href s))); [congruence|].
  destruct (has_body (doc s) && enskildHandled s); [congruence|].
  by destruct (has_body (doc s)).
Qed.

(** No callback of the script clears the flag, except the poller when it
    sees a new URL. *)
Lemma flag_cleared_by_poller_only ev s :
  page_event ev = false -> enskildHandled s = true ->
  enskildHandled (step ev s) = false -> detects_change ev s = true.
Proof.
  intros Hev Hflag Hclear. destruct ev; cbn [page_event] in Hev; try discriminate;
    cbn [step detects_change] in *.
  - destruct (bridge_same_click same_window data s) as (_ & H & _). congruence.
  - destruct (monitoring s); [|congruence]. unfold poll in Hclear.
    case_bool_decide; [congruence|done].
  - destruct (observing s); [|congruence]. unfold observe in Hclear.
    destruct (re_enskild (href s)); [|congruence].
    by rewrite handleEnskildPage_keeps_flag in Hclear.
  - destruct (tasks s !! i) as [t|]; [|congruence].
    set (s1 := set_tasks (delete i (tasks s)) s) in *.
    assert (enskildHandled s1 = true) as H1 by done.
    destruct t; cbn [run_task] in Hclear.
    + destruct (isEnskildPage (href s1)).
      * by rewrite handleEnskildPage_keeps_flag in Hclear.
      * destruct (isKungorelsePage (href s1)); [|congruence].
        destruct (captureKungorelseData_same_click s1) as (_ & H & _). congruence.
    + destruct (startObserver_same_click s1) as (_ & H & _). congruence.
    + destruct (captureCheck_same_click normalizedId now s1) as (_ & H & _). congruence.
    + destruct (_ && _); [|congruence].
      destruct (captureKungorelseData_same_click s1) as (_ & H & _). congruence.
    + destruct (captureKungorelseData_same_click s1) as (_ & H & _). congruence.
    + unfold enskildDwell in Hclear. destruct (first_link selectors (doc s1)).
      * cbn in Hclear. congruence.
      * destruct (resolved_same_click k s1) as (_ & H & _). congruence.
    + unfold enskildClick in Hclear.
      destruct (resolved_same_click k (push_click link s1)) as (_ & H & _).
      cbn in H. congruence.
Qed.

(** What the flag does achieve.  While [document.body] exists: an
    invocation of [handleEnskildPage] that finds the flag set clicks
    nothing and starts nothing (it only lets its caller go on); over a
    whole run the number of clicks is at most one plus the number of URL
    changes the poller has seen.  When no selector matches after the
    dwell, nothing is clicked, no click is pending, and the location, so
    the classification as an alias page, is untouched.  No callback of
    the script clears the flag except the poller on a URL change. *)
Lemma alias_click_guard :
  (forall k s, has_body (doc s) = true -> enskildHandled s = true ->
     handleEnskildPage k s = resolved k s)
  /\ (forall href0 d loading evs,
        has_body d = true -> forallb keeps_body evs = true ->
        (length (clicks (run (load href0 d loading) evs))
         <= 1 + url_changes (load href0 d loading) evs)%nat)
  /\ (forall k s, first_link selectors (doc s) = None ->
        clicks (enskildDwell k s) = clicks s
        /\ in_flight_count (tasks (enskildDwell k s)) = in_flight_count (tasks s)
        /\ href (enskildDwell k s) = href s
        /\ isEnskildPage (href (enskildDwell k s)) = isEnskildPage (href s))
  /\ (forall ev s, page_event ev = false -> enskildHandled s = true ->
        enskildHandled (step ev s) = false -> detects_change ev s = true).
Proof.
  split; [exact handled_page_not_handled_again|].
  split.
  { intros href0 d loading evs Hbody Hkeep.
    destruct (load_budget href0 d loading Hbody) as [H1 Hb].
    pose proof (run_budget evs _ Hb Hkeep) as Hrun.
    unfold click_budget in Hrun at 1. rewrite H1 in Hrun. lia. }
  split; [|exact flag_cleared_by_poller_only].
  intros k s H. unfold enskildDwell. rewrite H.
  destruct (resolved_no_click k s) as (Hc & Hh & Ht). by rewrite Hc, Hh, Ht.
Qed.

(** Two more runs with two clicks on one page.  Loaded before the body exists,
    the first invocation of [handleEnskildPage] neither tests nor sets
    the flag and the second one finds it unset: both go on, and the link
    of one page instance is clicked twice, with no URL change at all.
    And with a body throughout: a handler still in its dwell delay when
    the URL changes to a second alias page is not called off, so on that
    page, with the flag set and no further URL change, two clicks land. *)
Lemma alias_link_clicked_twice :
  isEnskildPage alias_url = true
  /\ url_changes (load alias_url no_body_yet true) early_load_run = 0%nat
  /\ clicks (run (load alias_url no_body_yet true) early_load_run)
     = [announcement_link; announcement_link]
  /\ clicks second_alias_reached = []
  /\ enskildHandled second_alias_reached = true
  /\ url_changes second_alias_reached overlapping_handlers = 0%nat
  /\ clicks (run second_alias_reached overlapping_handlers)
     = [announcement_link; announcement_link].
Proof. repeat split; by vm_compute. Qed.

End AliasClick.

(** * Further properties *)

(** ** Strings *)

(** Comparisons of code units, as arithmetic. *)
Ltac units_lia :=
  repeat (progress rewrite ?andb_true_iff, ?andb_false_iff, ?orb_true_iff, ?orb_false_iff,
            ?negb_true_iff, ?negb_false_iff, ?N.leb_le, ?N.leb_gt, ?N.eqb_eq, ?N.eqb_neq
            in *);
  lia.

Section StringFacts.

Lemma startsWith_spec p s : startsWith p s = true <-> exists b, s = p ++ b.
Proof.
  revert s. induction p as [|a p IH]; intros s; cbn [startsWith].
  - split; [intros _; by exists s | done].
  - destruct s as [|c s].
    + split; [done | intros [b Hb]; discriminate Hb].
    + rewrite andb_true_iff, N.eqb_eq, IH. split.
      * intros [-> [b ->]]. by exists b.
      * intros [b Hb]. injection Hb as -> ->. split; [done | by exists b].
Qed.

Lemma includes_spec p s : includes p s = true <-> exists a b, s = a ++ p ++ b.
Proof.
  induction s as [|c s IH]; cbn [includes]; rewrite orb_true_iff, startsWith_spec.
  - split.
    + intros [[b Hb]|?]; [|done]. by exists [], b.
    + intros (a & b & H). left. destruct a; [by exists b | discriminate H].
  - rewrite IH. split.
    + intros [[b Hb]|(a & b & ->)]; [by exists [], b | by exists (c :: a), b].
    + intros (a & b & H). destruct a as [|c' a].
      * left. by exists b.
      * right. injection H as -> ->. by exists a, b.
Qed.

Lemma startsWith_ci_spec p s :
  startsWith_ci p s = true
  <-> exists a b, s = a ++ b /\ Forall2 (fun x y => eq_ci x y = true) p a.
Proof.
  revert s. induction p as [|x p IH]; intros s; cbn [startsWith_ci].
  - split; [intros _; exists [], s; by split | done].
  - destruct s as [|c s].
    + split; [done|]. intros (a & b & H & Hf). inversion Hf; subst. discriminate H.
    + rewrite andb_true_iff, IH. split.
      * intros [Hc (a & b & -> & Hf)]. exists (c :: a), b. split; [done | by constructor].
      * intros (a & b & H & Hf). inversion Hf as [|? y ? a' Hxy Hf']; subst.
        injection H as -> ->. split; [done | by exists a', b].
Qed.

Lemma includes_ci_spec p s :
  includes_ci p s = true
  <-> exists before a after,
        s = before ++ a ++ after /\ Forall2 (fun x y => eq_ci x y = true) p a.
Proof.
  induction s as [|c s IH]; cbn [includes_ci]; rewrite orb_true_iff, startsWith_ci_spec.
  - split.
    + intros [(a & b & H & Hf)|?]; [|done]. by exists [], a, b.
    + intros (before & a & after & H & Hf). left.
      destruct before; [by exists a, after | discriminate H].
  - rewrite IH. split.
    + intros [(a & b & H & Hf)|(before & a & after & -> & Hf)].
      * by exists [], a, b.
      * by exists (c :: before), a, after.
    + intros (before & a & after & H & Hf). destruct before as [|c' before].
      * left. by exists a, after.
      * right. injection H as -> ->. by exists before, a, after.
Qed.

(** Lower case is idempotent, code unit by code unit. *)
Lemma lower_unit_fixed c : lower_unit (lower_unit c) = lower_unit c.
Proof.
  unfold lower_unit at 2 3.
  destruct (is_upper_ascii c) eqn:H1;
    [|destruct ((192 <=? c) && (c <=? 222) && negb (c =? 215)) eqn:H2];
    unfold lower_unit, is_upper_ascii in *.
  - replace ((65 <=? c + 32) && (c + 32 <=? 90)) with false by (symmetry; units_lia).
    replace ((192 <=? c + 32) && (c + 32 <=? 222) && negb (c + 32 =? 215)) with false
      by (symmetry; units_lia).
    done.
  - replace ((65 <=? c + 32) && (c + 32 <=? 90)) with false by (symmetry; units_lia).
    replace ((192 <=? c + 32) && (c + 32 <=? 222) && negb (c + 32 =? 215)) with false
      by (symmetry; units_lia).
    done.
  - by rewrite H1, H2.
Qed.

Lemma toLowerCase_fixed s : toLowerCase (toLowerCase s) = toLowerCase s.
Proof.
  unfold toLowerCase. rewrite map_map. apply map_ext. intros c. apply lower_unit_fixed.
Qed.

Lemma lower_unit_plain c :
  is_space c = false -> is_digit c = false ->
  is_space (lower_unit c) = false /\ is_digit (lower_unit c) = false.
Proof.
  intros Hs Hd. unfold lower_unit.
  destruct (is_upper_ascii c) eqn:H1;
    [|destruct ((192 <=? c) && (c <=? 222) && negb (c =? 215)) eqn:H2];
    [| |done]; unfold is_upper_ascii, is_space, is_digit in *; split; units_lia.
Qed.

End StringFacts.

(** ** More on the sanitizer *)

Section SanitizerCoverage.
Import Background SanitizerSpec Coverage.

(** X1.  The sanitizer only ever drops entries that are objects: its
    output is a sublist of its input (nothing added, nothing reordered),
    and the entries that are not objects (numbers, strings, [null]) come
    out exactly as they went in, whatever the seen sets are. *)
Theorem sanitizer_only_drops_objects (items : list value) (seenIds seenNames : gset jsstring) :
  sublist (sanitize_loop items seenIds seenNames) items
  /\ List.filter (fun e => negb (is_entry_object e)) (sanitize_loop items seenIds seenNames)
     = List.filter (fun e => negb (is_entry_object e)) items.
Proof.
  revert seenIds seenNames.
  induction items as [|entry rest IH]; intros seenIds seenNames; [by split|].
  cbn [sanitize_loop List.filter]. rewrite entry_guard.
  destruct (is_entry_object entry) eqn:Hobj; cbn [negb].
  2:{ destruct (IH seenIds seenNames) as [Hs Hf]. split; [by apply sublist_skip|].
      cbn [List.filter]. rewrite Hobj. cbn [negb]. by rewrite Hf. }
  case_ifs; first [ destruct (IH seenIds seenNames) as [Hs Hf]; split;
                    [by apply sublist_cons | exact Hf]
                  | idtac ].
  destruct (IH (add_nonempty (normalizeId (rawId entry)) seenIds)
               (add_nonempty (normalizeCompanyName (rawName entry)) seenNames)) as [Hs Hf].
  split; [by apply sublist_skip|]. cbn [List.filter]. rewrite Hobj. cbn [negb]. exact Hf.
Qed.

Lemma primitive_has_no_name entry :
  is_entry_object entry = false -> normalizeCompanyName (rawName entry) = [].
Proof. by destruct entry. Qed.

Lemma kept_names_fresh (items : list value) :
  forall seenIds seenNames,
    NoDup (kept_names (sanitize_loop items seenIds seenNames))
    /\ forall x, x ∈ kept_names (sanitize_loop items seenIds seenNames) -> x ∉ seenNames.
Proof.
  induction items as [|entry rest IH]; intros seenIds seenNames.
  { split; [constructor | intros x Hx; inversion Hx]. }
  cbn [sanitize_loop]. rewrite entry_guard.
  destruct (is_entry_object entry) eqn:Hobj; cbn [negb].
  2:{ unfold kept_names. cbn [map List.filter]. rewrite (primitive_has_no_name _ Hobj).
      cbn [nonempty]. apply IH. }
  destruct (shouldSkipCompany (rawName entry)); [apply IH|].
  destruct (nonempty (normalizeId (rawId entry)) && _); [apply IH|].
  destruct (nonempty (normalizeCompanyName (rawName entry))
            && has (normalizeCompanyName (rawName entry)) seenNames) eqn:Hname; [apply IH|].
  destruct (IH (add_nonempty (normalizeId (rawId entry)) seenIds)
               (add_nonempty (normalizeCompanyName (rawName entry)) seenNames))
    as [Hnd Hfresh].
  unfold kept_names in *. cbn [map List.filter]. unfold add_nonempty in *.
  destruct (nonempty (normalizeCompanyName (rawName entry))) eqn:Hne.
  - cbn [andb] in Hname. unfold has in Hname. apply bool_decide_eq_false in Hname. split.
    + apply NoDup_cons. split; [|exact Hnd].
      intros Hin. apply Hfresh in Hin. set_solver.
    + intros x Hx. apply elem_of_cons in Hx as [->|Hx]; [exact Hname|].
      apply Hfresh in Hx. set_solver.
  - split; [exact Hnd|]. intros x Hx. by apply Hfresh.
Qed.

(** X2.  No two kept entries share a non-empty normalized name (the name
    without whitespace and digits, in lower case), and none of them has a
    name or an id that was in the seen sets at the start. *)
Theorem sanitizer_dedups_by_name (items : list value) (seenIds seenNames : gset jsstring) :
  NoDup (kept_names (sanitize_loop items seenIds seenNames))
  /\ (forall x, x ∈ kept_names (sanitize_loop items seenIds seenNames) -> x ∉ seenNames)
  /\ (forall x, x ∈ kept_ids (sanitize_loop items seenIds seenNames) -> x ∉ seenIds).
Proof.
  split; [apply kept_names_fresh|]. split; [apply kept_names_fresh | apply kept_ids_fresh].
Qed.

(** What [sanitizePayload] does to an object, case by case on [data]. *)
Lemma sanitizePayload_object (m : gmap jsstring value) :
  sanitizePayload (VObj m)
  = VObj match m !! js "data" with
         | Some (VArr l) => <[js "data" := VArr (sanitize_loop l ∅ ∅)]> m
         | Some (VObj dm) =>
             match dm !! js "data" with
             | Some (VArr l) =>
                 <[js "data" := VObj (<[js "data" := VArr (sanitize_loop l ∅ ∅)]> dm)]> m
             | _ => m
             end
         | _ => m
         end.
Proof.
  unfold sanitizePayload. cbn [truthy typeof_object negb orb spread].
  destruct (m !! js "data") as [data|]; cbn [default from_option id]; [|done].
  destruct data as [ | |b|n|s|l|dm]; cbn [isArray truthy typeof_object andb get];
    rewrite ?andb_false_r; try done.
  destruct (dm !! js "data") as [inner|]; cbn [default from_option id isArray]; [|done].
  by destruct inner.
Qed.

Lemma sanitizePayload_object_fixed (m : gmap jsstring value) :
  sanitizePayload (sanitizePayload (VObj m)) = sanitizePayload (VObj m).
Proof.
  rewrite (sanitizePayload_object m).
  destruct (m !! js "data") as [data|] eqn:Hdata.
  2:{ by rewrite sanitizePayload_object, Hdata. }
  destruct data as [ | |b|n|s|l|dm]; try (by rewrite sanitizePayload_object, Hdata).
  - rewrite sanitizePayload_object, lookup_insert_eq.
    by rewrite sanitize_loop_fixed, insert_insert_eq.
  - destruct (dm !! js "data") as [inner|] eqn:Hinner.
    2:{ by rewrite sanitizePayload_object, Hdata, Hinner. }
    destruct inner as [ | | | | |l| ];
      try (by rewrite sanitizePayload_object, Hdata, Hinner).
    rewrite sanitizePayload_object, !lookup_insert_eq.
    by rewrite sanitize_loop_fixed, !insert_insert_eq.
Qed.

(** X3.  [sanitizePayload] is idempotent on every payload: a payload
    that went through the relay's sanitizer once is not changed by a
    second pass. *)
Theorem sanitizePayload_idempotent (payload : value) :
  sanitizePayload (sanitizePayload payload) = sanitizePayload payload.
Proof.
  destruct payload as [ | |b|n|s|l|m]; try reflexivity;
    try (match goal with
         | |- sanitizePayload (sanitizePayload ?p) = _ =>
             by rewrite !(sanitizePayload_primitive p)
         end).
  - change (sanitizePayload (VArr l)) with (sanitizePayload (VObj (JsValue.array_props l))).
    apply sanitizePayload_object_fixed.
  - apply sanitizePayload_object_fixed.
Qed.

Lemma keyword_in_lowered kw lowered :
  includes kw lowered = true <-> exists a b, lowered = a ++ kw ++ b.
Proof. apply includes_spec. Qed.

(** X4.  [shouldSkipCompany] holds of a string exactly when some stretch
    of it is, in lower case, one of the exclusion keywords; it never
    holds of a name that is not a string. *)
Theorem shouldSkipCompany_spec (name : value) :
  shouldSkipCompany name = true
  <-> exists s, name = VStr s /\ holds_keyword s.
Proof.
  destruct name as [ | | | |s| | ]; cbn [shouldSkipCompany];
    try (split; [done | intros (s' & H & _); discriminate H]).
  rewrite existsb_exists. unfold holds_keyword, toLowerCase. split.
  - intros (kw & Hkw & Hinc). exists s. split; [done|].
    apply includes_spec in Hinc as (a & b & Hs).
    apply map_eq_app in Hs as (a' & rest & -> & Ha & Hrest).
    apply map_eq_app in Hrest as (k' & b' & -> & Hk & Hb).
    exists a', k', b', kw. split; [done|]. split; [by apply list_elem_of_In|done].
  - intros (s' & [= <-] & before & stretch & after & kw & -> & Hkw & Hlow).
    exists kw. split; [by apply list_elem_of_In|].
    apply includes_spec. exists (map lower_unit before), (map lower_unit after).
    by rewrite !map_app, Hlow.
Qed.

Lemma strip_lower_commute s :
  strip_digits (strip_spaces (toLowerCase (strip_digits (strip_spaces s))))
  = toLowerCase (strip_digits (strip_spaces s)).
Proof.
  unfold strip_digits, strip_spaces, toLowerCase.
  induction s as [|c s IH]; [done|].
  rewrite (filter_cons _ c s).
  destruct (decide (is_space c = false)) as [Hs|Hs]; [|exact IH].
  rewrite (filter_cons _ c (filter _ s)).
  destruct (decide (is_digit c = false)) as [Hd|Hd]; [|exact IH].
  cbn [map]. destruct (lower_unit_plain c Hs Hd) as [Hs' Hd'].
  rewrite (filter_cons _ (lower_unit c)). rewrite decide_True by done.
  rewrite (filter_cons _ (lower_unit c)). rewrite decide_True by done.
  f_equal. exact IH.
Qed.

Lemma lower_unit_latin1 c : (c <=? 255)%N = true -> (lower_unit c <=? 255)%N = true.
Proof.
  intros Hc. unfold lower_unit.
  destruct (is_upper_ascii c) eqn:H1; [unfold is_upper_ascii in H1; units_lia|].
  destruct ((192 <=? c) && (c <=? 222) && negb (c =? 215))%N eqn:H2; [units_lia|done].
Qed.

Lemma normalized_latin1 s :
  latin1 s = true -> latin1 (toLowerCase (strip_digits (strip_spaces s))) = true.
Proof.
  unfold latin1, strip_digits, strip_spaces, toLowerCase.
  induction s as [|c s IH]; [done|]. cbn [forallb].
  intros [Hc Hs]%andb_true_iff. specialize (IH Hs).
  rewrite (filter_cons _ c s).
  destruct (decide (is_space c = false)); [|exact IH].
  rewrite (filter_cons _ c (filter _ s)).
  destruct (decide (is_digit c = false)); [|exact IH].
  cbn [map forallb]. by rewrite (lower_unit_latin1 c Hc), IH.
Qed.

(** X5.  On names whose code units are all at most U+00FF, where the
    case mapping of the model is that of the language,
    [normalizeCompanyName] is idempotent: the normalized name stays in
    that range, holds no whitespace and no digit and is in lower case
    already, so normalizing it again gives the same string. *)
Theorem normalizeCompanyName_idempotent (name : jsstring) :
  latin1 name = true ->
  latin1 (normalizeCompanyName (VStr name)) = true
  /\ normalizeCompanyName (VStr (normalizeCompanyName (VStr name)))
     = normalizeCompanyName (VStr name).
Proof.
  intros Hname. split; [by apply normalized_latin1|].
  cbn [normalizeCompanyName]. rewrite strip_lower_commute. apply toLowerCase_fixed.
Qed.

(** At the name of a haulage firm, with A with ring above, a digit and
    spaces. *)
Lemma normalizeCompanyName_witness :
  normalizeCompanyName (VStr ([197] ++ js "keri 7 AB")) = [229] ++ js "keriab"
  /\ normalizeCompanyName (VStr (normalizeCompanyName (VStr ([197] ++ js "keri 7 AB"))))
     = normalizeCompanyName (VStr ([197] ++ js "keri 7 AB")).
Proof.
  split; [reflexivity|].
  destruct (normalizeCompanyName_idempotent ([197] ++ js "keri 7 AB")) as [_ H];
    [reflexivity|exact H].
Defined.

End SanitizerCoverage.

(** ** More on the hook layer *)

Section HookCoverage.
Import Background Injected HookSpec Coverage.
Variable resolve : jsstring -> option (jsstring * jsstring).

Lemma text_then_save_one url b c :
  c ∈ text_then_save url b -> ic_url c = url.
Proof.
  unfold text_then_save. destruct (fst (text b)); [|by intros ?%elem_of_nil].
  by intros ->%list_elem_of_singleton.
Qed.

Lemma text_then_save_short url b : (length (text_then_save url b) <= 1)%nat.
Proof. unfold text_then_save. destruct (fst (text b)); cbn; lia. Qed.

(** X6.  The [fetch] wrapper posts at most one intercepted call per
    call of [fetch], only when the original [fetch] resolved, and only
    for a target: the call it posts carries the request URL, that URL is
    not on the ignore list, and it parses to the monitored host with an
    endpoint path. *)
Theorem fetch_hook_posts_targets_only (input : fetch_input) (result : option response) :
  (length (fetch_hook resolve input result) <= 1)%nat
  /\ forall c, c ∈ fetch_hook resolve input result ->
       ic_url c = requestUrl input
       /\ result <> None
       /\ shouldIgnoreUrl (requestUrl input) = false
       /\ exists pathname,
            resolve (requestUrl input) = Some (TARGET_HOST, pathname)
            /\ re_endpoint pathname = true.
Proof.
  unfold fetch_hook, isTargetUrl.
  destruct (shouldIgnoreUrl (requestUrl input)) eqn:Hign;
    [split; [cbn; lia | by intros c ?%elem_of_nil]|].
  destruct result as [r|]; [|split; [cbn; lia | by intros c ?%elem_of_nil]].
  destruct (resolve (requestUrl input)) as [[h p]|] eqn:Hres;
    [|split; [cbn; lia | by intros c ?%elem_of_nil]].
  case_bool_decide as Hh; [|split; [cbn; lia | by intros c ?%elem_of_nil]].
  destruct (re_endpoint p) eqn:Hp; [|split; [cbn; lia | by intros c ?%elem_of_nil]].
  subst h.
  assert (forall c, ic_url c = requestUrl input ->
            ic_url c = requestUrl input /\ Some r <> None /\ false = false
            /\ exists pathname, Some (TARGET_HOST, p) = Some (TARGET_HOST, pathname)
                                /\ re_endpoint pathname = true) as Hok.
  { intros c Hc. repeat split; [done..|]. by exists p. }
  destruct (Background.nonempty _ && declares_json _).
  - destruct (json (stream r)) as [[data|] used].
    + split; [cbn; lia|]. intros c ->%list_elem_of_singleton. by apply Hok.
    + split; [apply text_then_save_short|]. intros c Hc. by apply Hok, (text_then_save_one _ used).
  - split; [apply text_then_save_short|].
    intros c Hc. by apply Hok, (text_then_save_one _ (stream r)).
Qed.

Lemma xhr_history_snoc ops op :
  xhr_history (ops ++ [op]) = xhr_apply (xhr_history ops) op.
Proof. unfold xhr_history. by rewrite fold_left_app. Qed.

Lemma last_recorded_snoc ops op before :
  last_recorded (ops ++ [op]) before
  = match op with
    | Open url => if shouldIgnoreUrl url then last_recorded ops before else Some url
    | Send => last_recorded ops before
    end.
Proof.
  revert before. induction ops as [|o ops IH]; intros before.
  - destruct op; [|done]. cbn. by destruct (shouldIgnoreUrl url).
  - destruct o; cbn [app last_recorded]; apply IH.
Qed.

Lemma sends_snoc ops op :
  sends (ops ++ [op]) = (sends ops + match op with Send => 1 | Open _ => 0 end)%nat.
Proof.
  unfold sends. rewrite List.filter_app, length_app. destruct op; cbn; lia.
Qed.

Lemma xhr_history_state ops :
  kv_url (xhr_history ops) = last_recorded ops None
  /\ listeners (xhr_history ops) = sends ops.
Proof.
  induction ops as [|op ops [IHu IHl]] using rev_ind; [done|].
  rewrite xhr_history_snoc, last_recorded_snoc, sends_snoc.
  destruct op as [url|]; cbn [xhr_apply].
  - unfold xhr_open. destruct (shouldIgnoreUrl url); cbn [kv_url listeners]; split; lia || done.
  - unfold xhr_send. cbn [kv_url listeners]. split; [done|lia].
Qed.

Lemma elem_of_concat_replicate {A} (n : nat) (l : list A) x :
  x ∈ concat (replicate n l) -> x ∈ l.
Proof.
  induction n as [|n IH]; cbn; [by intros ?%elem_of_nil|].
  rewrite elem_of_app. intros [?|?]; [done | by apply IH].
Qed.

Lemma loadend_handler_short x r : (length (loadend_handler resolve x r) <= 1)%nat.
Proof.
  unfold loadend_handler. destruct (kv_url x); [|cbn; lia].
  destruct (_ || _); [cbn; lia|]. destruct (nullish _); cbn; lia.
Qed.

Lemma length_concat_replicate {A} (n : nat) (l : list A) :
  length (concat (replicate n l)) = (n * length l)%nat.
Proof. induction n as [|n IH]; cbn; [done|]. rewrite length_app, IH. lia. Qed.

(** X7.  Whatever was done with a request object before (any sequence
    of [open] and [send]), what its [loadend] posts is labelled with the
    URL of the latest [open] that was not on the ignore list, never with
    anything else; that URL is a target; and there is at most one call
    per [send] so far. *)
Theorem xhr_posts_latest_recorded_url (ops : list xhr_op) (r : xhr_result) :
  (length (xhr_loadend resolve (xhr_history ops) r) <= sends ops)%nat
  /\ forall c, c ∈ xhr_loadend resolve (xhr_history ops) r ->
       last_recorded ops None = Some (ic_url c)
       /\ isTargetUrl resolve (ic_url c) = true.
Proof.
  destruct (xhr_history_state ops) as [Hu Hl]. unfold xhr_loadend. split.
  - rewrite length_concat_replicate, Hl.
    pose proof (loadend_handler_short (xhr_history ops) r). nia.
  - intros c Hc%elem_of_concat_replicate. unfold loadend_handler in Hc.
    rewrite Hu in Hc. destruct (last_recorded ops None) as [url|]; [|by apply elem_of_nil in Hc].
    destruct (negb (Background.nonempty url)) eqn:Hne; [by apply elem_of_nil in Hc|].
    destruct (isTargetUrl resolve url) eqn:Ht; [|by apply elem_of_nil in Hc].
    cbn [negb orb] in Hc. destruct (nullish _); [by apply elem_of_nil in Hc|].
    apply list_elem_of_singleton in Hc. by subst c.
Qed.

End HookCoverage.

Section EndpointPattern.
Import Background Injected HookSpec Coverage.

Lemma lazy_letters_kung_spec s :
  lazy_letters_kung s = true
  <-> exists letters kung after,
        s = letters ++ kung ++ after
        /\ forallb is_letter_ascii letters = true
        /\ same_ci (js "kung") kung.
Proof.
  induction s as [|c s IH]; cbn [lazy_letters_kung]; rewrite orb_true_iff, startsWith_ci_spec.
  - split.
    + intros [(a & b & H & Hf)|?]; [|done]. by exists [], a, b.
    + intros (letters & kung & after & H & Hl & Hk). left.
      destruct letters; [by exists kung, after|discriminate H].
  - rewrite andb_true_iff, IH. split.
    + intros [(a & b & H & Hf)|[Hc (letters & kung & after & -> & Hl & Hk)]].
      * by exists [], a, b.
      * exists (c :: letters), kung, after. cbn. by rewrite Hc, Hl.
    + intros (letters & kung & after & H & Hl & Hk). destruct letters as [|c' letters].
      * left. by exists kung, after.
      * right. injection H as -> ->. cbn in Hl. apply andb_true_iff in Hl as [Hc Hl].
        split; [done|]. by exists letters, kung, after.
Qed.

Lemma same_ci_length p s : same_ci p s -> length s = length p.
Proof. intros H. symmetry. by eapply Forall2_length. Qed.

Lemma endpoint_at_spec s :
  endpoint_at s = true
  <-> exists prefix letters kung after,
        s = prefix ++ letters ++ kung ++ after
        /\ same_ci (js "/poit/rest/sok") prefix
        /\ forallb is_letter_ascii letters = true
        /\ same_ci (js "kung") kung.
Proof.
  unfold endpoint_at. rewrite andb_true_iff, startsWith_ci_spec, lazy_letters_kung_spec. split.
  - intros [(a & b & -> & Hf) (letters & kung & after & Hd & Hl & Hk)].
    rewrite <- (same_ci_length _ _ Hf), drop_app_length in Hd. subst b.
    by exists a, letters, kung, after.
  - intros (prefix & letters & kung & after & -> & Hp & Hl & Hk). split.
    + by exists prefix, (letters ++ kung ++ after).
    + exists letters, kung, after.
      by rewrite <- (same_ci_length _ _ Hp), drop_app_length.
Qed.

(** X8.  The endpoint test of [isTargetUrl] accepts a path exactly when
    the path holds, at some position, the text /poit/rest/sok, then
    ASCII letters only (possibly none), then kung, all in any letter
    case: the search may start anywhere in the path and nothing is asked
    of what follows. *)
Theorem re_endpoint_spec (p : jsstring) : re_endpoint p = true <-> endpoint_shape p.
Proof.
  unfold endpoint_shape.
  induction p as [|c p IH]; cbn [re_endpoint]; rewrite orb_true_iff, endpoint_at_spec.
  - split.
    + intros [(prefix & letters & kung & after & H)|?]; [|done].
      by exists [], prefix, letters, kung, after.
    + intros (before & prefix & letters & kung & after & H & Hrest). left.
      destruct before; [by exists prefix, letters, kung, after|discriminate H].
  - rewrite IH. split.
    + intros [(prefix & letters & kung & after & H)
             |(before & prefix & letters & kung & after & -> & H)].
      * by exists [], prefix, letters, kung, after.
      * by exists (c :: before), prefix, letters, kung, after.
    + intros (before & prefix & letters & kung & after & H & Hrest).
      destruct before as [|c' before].
      * left. by exists prefix, letters, kung, after.
      * right. injection H as -> ->. by exists before, prefix, letters, kung, after.
Qed.

End EndpointPattern.

(** ** More on page classification and ids *)

Section Classification.
Import Background Content CaptureSpec Coverage.

(** A code unit that matches a lower-case letter or a slash of a pattern
    without regard to case is that letter, or slash, in lower case. *)
Lemma eq_ci_lower x c :
  is_lower_ascii x = true \/ x = 47 -> eq_ci x c = true -> lower_unit c = x.
Proof.
  unfold eq_ci, canon, lower_unit. intros Hx H.
  destruct (is_lower_ascii x) eqn:Hlx; destruct (is_lower_ascii c) eqn:Hlc;
    destruct (is_upper_ascii c) eqn:Huc;
    destruct ((192 <=? c) && (c <=? 222) && negb (c =? 215)) eqn:Hlat;
    unfold is_lower_ascii, is_upper_ascii in *; units_lia.
Qed.

Lemma same_ci_lower p a :
  Forall (fun x => is_lower_ascii x = true \/ x = 47) p ->
  Forall2 (fun x y => eq_ci x y = true) p a -> toLowerCase a = p.
Proof.
  intros Hp Hf. induction Hf as [|x c p a Hxc Hf IH]; [done|].
  apply Forall_cons in Hp as [Hx Hp]. unfold toLowerCase in *. cbn [map].
  by rewrite (eq_ci_lower x c), IH.
Qed.

Lemma enskild_pattern_plain :
  Forall (fun x => is_lower_ascii x = true \/ x = 47) (js "/enskild/").
Proof. repeat constructor; (by left) || (by right). Qed.

(** The pattern test implies the lower-case test. *)
Lemma isEnskildPage_contains u : isEnskildPage u = true -> urlContainsEnskild u = true.
Proof.
  unfold isEnskildPage, urlContainsEnskild. rewrite includes_ci_spec, includes_spec.
  intros (before & a & after & -> & Hf).
  exists (toLowerCase before), (toLowerCase after). unfold toLowerCase in *.
  rewrite !map_app. f_equal. f_equal. apply (same_ci_lower _ _ enskild_pattern_plain Hf).
Qed.

Lemma re_enskild_isEnskildPage u : re_enskild u = true -> isEnskildPage u = true.
Proof.
  unfold re_enskild, isEnskildPage.
  change (js "https://poit.bolagsverket.se/poit-app/enskild/")
    with (js "https://poit.bolagsverket.se/poit-app" ++ js "/enskild/").
  rewrite startsWith_ci_app, andb_true_iff, includes_ci_spec, !startsWith_ci_spec.
  intros [(a & b & Hu & Ha) (a' & b' & Hd & Ha')].
  exists a, a', b'. split; [|done]. rewrite Hu at 1. f_equal.
  pose proof (Forall2_length _ _ _ Ha) as Hlen.
  rewrite Hu, Hlen, drop_app_length in Hd. done.
Qed.

(** X9.  The page tests exclude each other and nest as the capture path
    relies on: a detail page passes none of the three alias tests, and a
    URL that passes the anchored alias test of the poller and the
    observer passes the tests of [handleEnskildPage] and of the safety
    gate, and is no detail page. *)
Theorem page_tests_exclusive (u : jsstring) :
  (isKungorelsePage u = true ->
     re_kungorelse u = true /\ urlContainsEnskild u = false
     /\ isEnskildPage u = false /\ re_enskild u = false)
  /\ (re_enskild u = true ->
        isEnskildPage u = true /\ urlContainsEnskild u = true
        /\ isKungorelsePage u = false).
Proof.
  split.
  - intros H. apply isKungorelsePage_inv in H as [Hc Hk]. repeat split; try done.
    + destruct (isEnskildPage u) eqn:He; [|done].
      apply isEnskildPage_contains in He. congruence.
    + by apply detail_url_not_alias.
  - intros H. pose proof (re_enskild_isEnskildPage _ H) as He.
    pose proof (isEnskildPage_contains _ He) as Hc. repeat split; try done.
    unfold isKungorelsePage. unfold urlContainsEnskild in Hc. by rewrite Hc.
Qed.

Lemma page_tests_witness :
  (re_kungorelse detail_url = true /\ urlContainsEnskild detail_url = false
   /\ isEnskildPage detail_url = false /\ re_enskild detail_url = false)
  /\ (isEnskildPage alias_url = true /\ urlContainsEnskild alias_url = true
      /\ isKungorelsePage alias_url = false).
Proof.
  split.
  - apply (proj1 (page_tests_exclusive detail_url)). reflexivity.
  - apply (proj2 (page_tests_exclusive alias_url)). reflexivity.
Defined.

Lemma take_run_all s : forallb digit_or_hyphen (take_run s) = true.
Proof.
  induction s as [|c s IH]; [done|]. cbn [take_run].
  destruct (digit_or_hyphen c) eqn:Hc; [|done]. cbn. by rewrite Hc.
Qed.

Lemma take_run_prefix s : exists rest, s = take_run s ++ rest.
Proof.
  induction s as [|c s [rest IH]]; [by exists []|]. cbn [take_run].
  destruct (digit_or_hyphen c); [|by exists (c :: s)].
  exists rest. cbn. by rewrite <- IH.
Qed.

Lemma id_at_shape s x :
  id_at s = Some x ->
  is_announcement_id x = true
  /\ exists segment rest,
       (segment = js "kungorelse/" \/ segment = js "enskild/") /\ s = segment ++ x ++ rest.
Proof.
  unfold id_at.
  assert (forall p seg, p = seg ++ [75] ->
            (if startsWith p s
             then match take_run (drop (length p) s) with
                  | [] => None
                  | run => Some (75 :: run)
                  end
             else None) = Some x ->
            is_announcement_id x = true /\ exists rest, s = seg ++ x ++ rest) as Hone.
  { intros p seg -> H. destruct (startsWith _ s) eqn:Hs; [|done].
    apply startsWith_spec in Hs as [b ->]. rewrite drop_app_length in H.
    pose proof (take_run_all b) as Hall. destruct (take_run_prefix b) as [rest Hb].
    destruct (take_run b) as [|c run] eqn:Hrun; [done|]. injection H as <-.
    split; [exact Hall|]. exists rest. rewrite Hb at 1. by rewrite <- !app_assoc. }
  destruct (if startsWith (js "kungorelse/K") s then _ else None) as [i|] eqn:H1.
  - intros [= <-]. destruct (Hone (js "kungorelse/K") (js "kungorelse/") eq_refl H1)
      as [Hid [rest ->]].
    split; [done|]. exists (js "kungorelse/"), rest. split; [by left|done].
  - intros H2. destruct (Hone (js "enskild/K") (js "enskild/") eq_refl H2) as [Hid [rest ->]].
    split; [done|]. exists (js "enskild/"), rest. split; [by right|done].
Qed.

Lemma replace_first_absent (c : N) rep s :
  c ∉ s -> replace_first [c] rep s = s.
Proof.
  induction s as [|d s IH]; intros Hc; [done|].
  apply not_elem_of_cons in Hc as [Hne Hc]. cbn [replace_first startsWith].
  rewrite (proj2 (N.eqb_neq c d)) by done. cbn [andb]. by rewrite IH.
Qed.

Lemma digit_or_hyphen_no_slash run :
  forallb digit_or_hyphen run = true -> 47 ∉ run.
Proof.
  induction run as [|c run IH]; cbn; [intros _; apply not_elem_of_nil|].
  rewrite andb_true_iff. intros [Hc Hrun]. apply not_elem_of_cons. split; [|by apply IH].
  intros <-. by vm_compute in Hc.
Qed.

Lemma announcement_id_no_slash x :
  is_announcement_id x = true -> replace_first (js "/") (js "-") x = x.
Proof.
  intros H. apply (replace_first_absent 47 [45]). destruct x as [|k run]; [done|].
  unfold is_announcement_id in H.
  destruct (N.eq_dec k 75) as [->|Hk].
  - destruct run as [|c run]; [done|]. apply not_elem_of_cons. split; [done|].
    by apply digit_or_hyphen_no_slash.
  - exfalso. destruct k as [|p]; [done|].
    do 7 (destruct p as [p|p|]; try done).
Qed.

Lemma extractKungorelseId_id u x :
  extractKungorelseId u = Some x -> is_announcement_id x = true.
Proof.
  induction u as [|c u IH]; cbn [extractKungorelseId].
  - destruct (id_at []) as [i|] eqn:Hi; [|done]. intros [= <-].
    by destruct (id_at_shape _ _ Hi).
  - destruct (id_at (c :: u)) as [i|] eqn:Hi; [|done].
    intros [= <-]. by destruct (id_at_shape _ _ Hi).
Qed.

(** X10.  Whatever [extractKungorelseId] finds in a URL is K followed
    by one or more digits or hyphens, stands in the URL right after
    kungorelse/ or enskild/, and holds no slash: replacing a slash by a
    hyphen, as [captureKungorelseData] does before it looks the id up,
    never changes it. *)
Theorem extracted_id_shape (u x : jsstring) :
  extractKungorelseId u = Some x ->
  is_announcement_id x = true
  /\ replace_first (js "/") (js "-") x = x
  /\ exists before segment rest,
       (segment = js "kungorelse/" \/ segment = js "enskild/")
       /\ u = before ++ segment ++ x ++ rest.
Proof.
  induction u as [|c u IH]; cbn [extractKungorelseId].
  - destruct (id_at []) as [i|] eqn:Hi; [|done]. intros [= <-].
    destruct (id_at_shape _ _ Hi) as [Hid (seg & rest & Hseg & Hu)].
    split; [done|]. split; [by apply announcement_id_no_slash|].
    by exists [], seg, rest.
  - destruct (id_at (c :: u)) as [i|] eqn:Hi.
    + intros [= <-]. destruct (id_at_shape _ _ Hi) as [Hid (seg & rest & Hseg & Hu)].
      split; [done|]. split; [by apply announcement_id_no_slash|].
      by exists [], seg, rest.
    + intros H. destruct (IH H) as (Hid & Hrep & before & seg & rest & Hseg & ->).
      split; [done|]. split; [done|]. by exists (c :: before), seg, rest.
Qed.

Lemma extracted_id_witness :
  is_announcement_id (js "K100-25") = true
  /\ replace_first (js "/") (js "-") (js "K100-25") = js "K100-25"
  /\ exists before segment rest,
       (segment = js "kungorelse/" \/ segment = js "enskild/")
       /\ detail_url = before ++ segment ++ js "K100-25" ++ rest.
Proof. apply (extracted_id_shape detail_url (js "K100-25")). reflexivity. Defined.

End Classification.

(** ** Alias pages: the observer and the poller on one page *)

Section AliasRace.
Import Background Content CaptureSpec.

(** C9 fails on an ordinary change to an alias page.  The script is
    running with a body, the flag unset and no timer waiting; the page
    changes to an alias page [u] that shows a link.  The mutation
    observer fires first: [handleEnskildPage] sets the flag and starts
    its dwell.  Then the URL poller sees the new URL: it clears the flag
    that was set for this very page and calls [handleEnskildPage] again,
    which finds the flag unset and starts a second dwell.  Both find the
    link and both click it: two clicks on one page instance, with one
    URL change in the run and the flag set from the second invocation
    on. *)
Theorem observer_and_poller_click_twice (s : state) (u now : jsstring) (link : anchor) :
  monitoring s = true ->
  observing s = true ->
  tasks s = [] ->
  has_body (doc s) = true ->
  enskildHandled s = false ->
  lastUrl s <> u ->
  re_enskild u = true ->
  first_link selectors (doc s) = Some link ->
  enskildHandled (run s [Navigate u; ObserverFire]) = true
  /\ tasks (run s [Navigate u; ObserverFire; PollTick])
     = [EnskildDwell NoFollowup; EnskildDwell PollFollowup]
  /\ href (run s (observer_before_poller u now)) = u
  /\ enskildHandled (run s (observer_before_poller u now)) = true
  /\ url_changes s (observer_before_poller u now) = 1%nat
  /\ clicks (run s (observer_before_poller u now)) = link :: link :: clicks s.
Proof.
  intros Hmon Hobs Htasks Hbody Hflag Hlast Hu Hlink.
  pose proof (re_enskild_isEnskildPage _ Hu) as He.
  destruct s as [h d flag cap pen mon obs last ts out cl].
  cbn [monitoring observing tasks doc enskildHandled lastUrl clicks] in *. subst.
  set (s2 := State u d true cap pen true true last [EnskildDwell NoFollowup] out cl).
  set (s3 := State u d true cap pen true true u
               [EnskildDwell NoFollowup; EnskildDwell PollFollowup] out cl).
  assert (step ObserverFire (State u d false cap pen true true last [] out cl) = s2) as H2.
  { subst s2. cbn [step observing]. unfold observe, handleEnskildPage.
    cbn -[isEnskildPage re_enskild has_body]. by rewrite Hu, He, Hbody. }
  assert (step PollTick s2 = s3) as H3.
  { subst s2 s3. cbn [step monitoring]. unfold poll. cbn [href lastUrl].
    rewrite bool_decide_eq_false_2 by (intros E; by apply Hlast).
    cbn -[isEnskildPage re_enskild has_body handleEnskildPage]. rewrite Hbody, Hu.
    unfold handleEnskildPage. cbn -[isEnskildPage re_enskild has_body].
    by rewrite He, Hbody. }
  assert (run s3 [RunTask 0 now; RunTask 0 now; RunTask 0 now; RunTask 0 now]
          = State u d true cap pen true true u [AfterEnskildPoll] out (link :: link :: cl))
    as H4.
  { unfold run. cbn [fold_left]. subst s3.
    do 2 (cbn -[first_link selectors]; unfold enskildDwell;
          cbn -[first_link selectors]; rewrite Hlink).
    reflexivity. }
  change (run _ [Navigate u; ObserverFire])
    with (step ObserverFire (State u d false cap pen true true last [] out cl)).
  change (run _ [Navigate u; ObserverFire; PollTick])
    with (step PollTick
            (step ObserverFire (State u d false cap pen true true last [] out cl))).
  change (run _ (observer_before_poller u now))
    with (run (step PollTick
                 (step ObserverFire (State u d false cap pen true true last [] out cl)))
              [RunTask 0 now; RunTask 0 now; RunTask 0 now; RunTask 0 now]).
  rewrite H2, H3, H4.
  split; [done|]. split; [done|]. split; [done|]. split; [done|]. split; [|done].
  change (url_changes _ (observer_before_poller u now))
    with ((if detects_change PollTick
                (step ObserverFire (State u d false cap pen true true last [] out cl))
           then 1 else 0)
          + url_changes
              (step PollTick
                 (step ObserverFire (State u d false cap pen true true last [] out cl)))
              [RunTask 0 now; RunTask 0 now; RunTask 0 now; RunTask 0 now])%nat.
  rewrite H2, H3. cbn [url_changes detects_change Nat.add].
  subst s2. cbn [monitoring href lastUrl andb].
  by rewrite bool_decide_eq_false_2 by (intros E; by apply Hlast).
Qed.

Lemma settled_detail_page_state :
  settled_detail_page
  = State detail_url (page_with 2000 1) false {[ js "K100-25" ]} ∅ true true detail_url []
      (outbox settled_detail_page) [].
Proof. by vm_compute. Qed.

Lemma observer_and_poller_witness :
  enskildHandled settled_detail_page = false
  /\ tasks settled_detail_page = []
  /\ url_changes settled_detail_page (observer_before_poller alias_url clock) = 1%nat
  /\ clicks (run settled_detail_page (observer_before_poller alias_url clock))
     = [announcement_link; announcement_link].
Proof.
  destruct (observer_and_poller_click_twice settled_detail_page alias_url clock
              announcement_link) as (_ & _ & _ & _ & Hchanges & Hclicks).
  - by rewrite settled_detail_page_state.
  - by rewrite settled_detail_page_state.
  - by rewrite settled_detail_page_state.
  - by rewrite settled_detail_page_state.
  - by rewrite settled_detail_page_state.
  - rewrite settled_detail_page_state. cbn [lastUrl]. intros E. by vm_compute in E.
  - by vm_compute.
  - rewrite settled_detail_page_state. by vm_compute.
  - split; [by rewrite settled_detail_page_state|].
    split; [by rewrite settled_detail_page_state|].
    split; [exact Hchanges|]. rewrite Hclicks. by rewrite settled_detail_page_state.
Defined.

End AliasRace.

(** ** More invariants of a run *)

Section QueueInvariant.
Import Background Content CaptureSpec Coverage.

Lemma check_ids_snoc ts t :
  check_ids (ts ++ [t]) = check_ids ts ++ match check_id t with Some x => [x] | None => [] end.
Proof. unfold check_ids. rewrite omap_app. cbn. by destruct (check_id t). Qed.

Lemma click_links_snoc ts t :
  click_links (ts ++ [t])
  = click_links ts ++ match click_link t with Some a => [a] | None => [] end.
Proof. unfold click_links. rewrite omap_app. cbn. by destruct (click_link t). Qed.

Lemma check_ids_cons t ts :
  check_ids (t :: ts)
  = match check_id t with Some x => x :: check_ids ts | None => check_ids ts end.
Proof. reflexivity. Qed.

Lemma click_links_cons t ts :
  click_links (t :: ts)
  = match click_link t with Some a => a :: click_links ts | None => click_links ts end.
Proof. reflexivity. Qed.

Lemma same_queue_state_inv s s' : same_queue_state s s' -> queue_inv s -> queue_inv s'.
Proof.
  intros (Hp & Hc & Ho & Hk & Hi & Hl) [H1 H2 H3 H4 H5 H6 H7].
  split; rewrite ?Hp, ?Hc, ?Ho, ?Hk, ?Hi, ?Hl; assumption.
Qed.

Lemma same_queue_trans s1 s2 s3 :
  same_queue_state s1 s2 -> same_queue_state s2 s3 -> same_queue_state s1 s3.
Proof. intros (?&?&?&?&?&?) (?&?&?&?&?&?). repeat split; congruence. Qed.

(** Adding a callback that is neither a capture check nor a click. *)
Lemma add_other_task t s :
  check_id t = None -> click_link t = None -> same_queue_state s (add_task t s).
Proof.
  intros Hc Hl. repeat split; cbn [add_task set_tasks tasks].
  - by rewrite check_ids_snoc, Hc, app_nil_r.
  - by rewrite click_links_snoc, Hl, app_nil_r.
Qed.

Lemma resolved_same_queue k s : same_queue_state s (resolved k s).
Proof. destruct k; [by repeat split | by apply add_other_task..]. Qed.

Lemma handleEnskildPage_same_queue k s : same_queue_state s (handleEnskildPage k s).
Proof.
  unfold handleEnskildPage.
  destruct (negb (isEnskildPage (href s))); [apply resolved_same_queue|].
  destruct (has_body (doc s) && enskildHandled s); [apply resolved_same_queue|].
  destruct (has_body (doc s)).
  - eapply same_queue_trans; [|by apply add_other_task]. by repeat split.
  - by apply add_other_task.
Qed.

Lemma startObserver_same_queue s : same_queue_state s (startObserver s).
Proof.
  unfold startObserver. destruct (has_body (doc s)); [by repeat split|].
  by apply add_other_task.
Qed.

Lemma captureKungorelseData_queue s : queue_inv s -> queue_inv (captureKungorelseData s).
Proof.
  intros Hinv. unfold captureKungorelseData.
  destruct (urlContainsEnskild (href s)); [done|].
  destruct (negb (isKungorelsePage (href s)) || isEnskildPage (href s)); [done|].
  destruct (extractKungorelseId (href s)) as [kid|] eqn:Hid; [|done].
  pose proof (extractKungorelseId_id _ _ Hid) as Hshape.
  cbv zeta. rewrite (announcement_id_no_slash _ Hshape).
  destruct (has kid (capturedKungorelseIds s)); [done|].
  destruct (has kid (pendingCaptures s)) eqn:Hpen; [done|]. cbn [orb].
  apply bool_decide_eq_false in Hpen.
  destruct Hinv as [H1 H2 H3 H4 H5 H6 H7].
  split; cbn [add_task set_tasks set_pending tasks pendingCaptures capturedKungorelseIds
                outbox clicks]; rewrite ?check_ids_snoc, ?click_links_snoc;
    cbn [check_id click_link]; rewrite ?app_nil_r; try assumption.
  - intros x. rewrite elem_of_union, elem_of_singleton, elem_of_app, list_elem_of_singleton.
    rewrite H1. tauto.
  - apply NoDup_app. split; [done|]. split; [|apply NoDup_singleton].
    intros x Hx Hx'%list_elem_of_singleton. subst x. by apply Hpen, H1.
  - intros x [Hx|Hx%list_elem_of_singleton]%elem_of_app; [by apply H3|by subst x].
Qed.

(** The capture check for [nid], once its timer is off the queue. *)
Lemma captureCheck_queue nid now s ts0 :
  queue_inv (set_tasks ts0 s) ->
  check_ids ts0 ≡ₚ nid :: check_ids (tasks s) ->
  click_links ts0 ≡ₚ click_links (tasks s) ->
  queue_inv (captureCheck nid now s).
Proof.
  intros [H1 H2 H3 H4 H5 H6 H7] Hperm Hlinks.
  cbn [set_tasks tasks pendingCaptures capturedKungorelseIds outbox clicks] in *.
  rewrite Hperm in H2. apply NoDup_cons in H2 as [Hnid Hnd].
  assert (forall x, x ∈ pendingCaptures s ∖ {[nid]} <-> x ∈ check_ids (tasks s)) as Hpen.
  { intros x. rewrite elem_of_difference, elem_of_singleton, H1, Hperm, elem_of_cons.
    split; [tauto|]. intros Hx. split; [by right|]. by intros ->. }
  assert (forall x, x ∈ check_ids (tasks s) -> is_announcement_id x = true) as Hids.
  { intros x Hx. apply H3. rewrite Hperm. by right. }
  assert (is_announcement_id nid = true) as Hnidok.
  { apply H3. rewrite Hperm. by left. }
  assert (forall a, a ∈ click_links (tasks s) -> announcement_href a = true) as Hl.
  { intros a Ha. apply H7. by rewrite Hlinks. }
  assert (queue_inv (unqueue nid s)) as Hrej by (by split).
  unfold captureCheck.
  destruct (negb (re_kungorelse (href s)) || re_enskild (href s)) eqn:Hpage; [done|].
  destruct (has nid (capturedKungorelseIds s)); [done|].
  destruct (length _ <? 500)%nat eqn:Hlen; [done|].
  destruct ((2 <? linkCount (doc s))%nat && _); [done|].
  destruct (urlContainsEnskild (href s)) eqn:Hurl; [done|].
  apply orb_false_iff in Hpage as [Hk%negb_false_iff _]. apply Nat.ltb_ge in Hlen.
  split; cbn -[urlContainsEnskild]; try assumption.
  - intros x. rewrite elem_of_union, elem_of_singleton, elem_of_cons, H4. tauto.
  - intros r [->|Hr]%elem_of_cons; [|by apply H5].
    repeat split; cbn -[urlContainsEnskild]; try done.
    destruct (nonempty (doc_title (doc s))) eqn:Ht; [by destruct (doc_title (doc s))|done].
Qed.

Lemma find_some_holds {A} (f : A -> bool) l x : List.find f l = Some x -> f x = true.
Proof. intros H. by apply find_some in H as [_ ?]. Qed.

Lemma includes_longer a p s : includes (a ++ p) s = true -> includes p s = true.
Proof.
  rewrite !includes_spec. intros (x & y & ->). exists (x ++ a), y. by rewrite <- !app_assoc.
Qed.

(** A link found by [first_link] matches one of the selectors. *)
Lemma first_link_matches sels d link :
  first_link sels d = Some link -> exists sel, sel ∈ sels /\ sel link = true.
Proof.
  induction sels as [|sel sels IH]; cbn [first_link]; [done|].
  unfold querySelector. destruct (List.find sel (anchors d)) as [l|] eqn:Hl.
  - intros [= <-]. exists sel. split; [by left|]. by apply find_some_holds in Hl.
  - intros (sel' & Hin & Hsel)%IH. exists sel'. split; [by right|done].
Qed.

(** Whatever selector finds the link, the link points to an announcement. *)
Lemma first_link_announcement d link :
  first_link selectors d = Some link -> announcement_href link = true.
Proof.
  intros (sel & Hin & Hsel)%first_link_matches.
  unfold selectors in Hin. unfold announcement_href, href_has in *.
  apply elem_of_cons in Hin as [->|Hin].
  { apply andb_true_iff in Hsel as [Hsel _].
    by apply (includes_longer (js "/poit-app")). }
  apply elem_of_cons in Hin as [->|Hin].
  { by apply andb_true_iff in Hsel as [_ Hsel]. }
  apply list_elem_of_singleton in Hin as ->. done.
Qed.

Lemma enskildDwell_queue k s : queue_inv s -> queue_inv (enskildDwell k s).
Proof.
  intros Hinv. unfold enskildDwell.
  destruct (first_link selectors (doc s)) as [link|] eqn:Hlink.
  2:{ eapply same_queue_state_inv; [apply resolved_same_queue|done]. }
  apply first_link_announcement in Hlink.
  destruct Hinv as [H1 H2 H3 H4 H5 H6 H7].
  split; cbn [add_task set_tasks tasks pendingCaptures capturedKungorelseIds outbox clicks];
    rewrite ?check_ids_snoc, ?click_links_snoc; cbn [check_id click_link];
    rewrite ?app_nil_r; try assumption.
  intros a [Ha|Ha%list_elem_of_singleton]%elem_of_app; [by apply H7|by subst a].
Qed.

Lemma enskildClick_queue link k s :
  queue_inv s -> announcement_href link = true -> queue_inv (enskildClick link k s).
Proof.
  intros [H1 H2 H3 H4 H5 H6 H7] Hlink. unfold enskildClick.
  eapply same_queue_state_inv; [apply resolved_same_queue|].
  split; cbn; try assumption.
  intros a [->|Ha]%elem_of_cons; [done|by apply H6].
Qed.

Lemma bridge_queue same data s : queue_inv s -> queue_inv (bridge same data s).
Proof.
  intros Hinv. unfold bridge. case_ifs; try done.
  destruct Hinv as [H1 H2 H3 H4 H5 H6 H7]. by split.
Qed.

Lemma poll_queue s : queue_inv s -> queue_inv (poll s).
Proof.
  intros Hinv. unfold poll. case_bool_decide; [done|].
  set (s2 := if has_body _ then _ else _).
  assert (queue_inv s2) as Hs2.
  { eapply same_queue_state_inv; [|exact Hinv]. subst s2. by destruct (has_body _). }
  destruct (re_enskild (href s)).
  - eapply same_queue_state_inv; [apply handleEnskildPage_same_queue|done].
  - destruct (re_kungorelse (href s)); [by apply captureKungorelseData_queue|done].
Qed.

Lemma run_task_queue t now s ts0 :
  queue_inv (set_tasks ts0 s) -> ts0 ≡ₚ t :: tasks s -> queue_inv (run_task t now s).
Proof.
  intros Hinv Hperm.
  assert (check_ids ts0 ≡ₚ check_ids (t :: tasks s)) as Hids
    by (unfold check_ids; by rewrite Hperm).
  assert (click_links ts0 ≡ₚ click_links (t :: tasks s)) as Hlinks
    by (unfold click_links; by rewrite Hperm).
  assert (check_id t = None -> click_link t = None -> queue_inv s) as Hplain.
  { intros Hc Hl. rewrite check_ids_cons, Hc in Hids. rewrite click_links_cons, Hl in Hlinks.
    destruct Hinv as [H1 H2 H3 H4 H5 H6 H7].
    cbn [set_tasks tasks pendingCaptures capturedKungorelseIds outbox clicks] in *.
    split; try assumption.
    - intros x. by rewrite H1, Hids.
    - by rewrite <- Hids.
    - intros x Hx. apply H3. by rewrite Hids.
    - intros a Ha. apply H7. by rewrite Hlinks. }
  destruct t; cbn [run_task].
  - specialize (Hplain eq_refl eq_refl). destruct (isEnskildPage (href s)).
    + eapply same_queue_state_inv; [apply handleEnskildPage_same_queue|done].
    + destruct (isKungorelsePage (href s)); [by apply captureKungorelseData_queue|done].
  - eapply same_queue_state_inv; [apply startObserver_same_queue|by apply Hplain].
  - rewrite check_ids_cons in Hids. rewrite click_links_cons in Hlinks.
    by apply (captureCheck_queue _ _ _ ts0).
  - specialize (Hplain eq_refl eq_refl).
    destruct (_ && _); [by apply captureKungorelseData_queue|done].
  - by apply captureKungorelseData_queue, Hplain.
  - by apply enskildDwell_queue, Hplain.
  - rewrite check_ids_cons in Hids. rewrite click_links_cons in Hlinks.
    cbn [check_id click_link] in Hids, Hlinks.
    destruct Hinv as [H1 H2 H3 H4 H5 H6 H7].
    cbn [set_tasks tasks pendingCaptures capturedKungorelseIds outbox clicks] in *.
    apply enskildClick_queue.
    + split; try assumption.
      * intros x. by rewrite H1, Hids.
      * by rewrite <- Hids.
      * intros x Hx. apply H3. by rewrite Hids.
      * intros a Ha. apply H7. rewrite Hlinks. by right.
    + apply H7. rewrite Hlinks. by left.
Qed.

Lemma step_queue ev s : queue_inv s -> queue_inv (step ev s).
Proof.
  intros Hinv. destruct ev; cbn [step].
  - eapply same_queue_state_inv; [|exact Hinv]. by repeat split.
  - eapply same_queue_state_inv; [|exact Hinv]. by repeat split.
  - by apply bridge_queue.
  - destruct (monitoring s); [by apply poll_queue|done].
  - destruct (observing s); [|done]. unfold observe.
    destruct (re_enskild (href s)); [|done].
    eapply same_queue_state_inv; [apply handleEnskildPage_same_queue|done].
  - destruct (tasks s !! i) as [t|] eqn:Ht; [|done].
    apply (run_task_queue _ _ _ (tasks s)).
    + eapply same_queue_state_inv; [|exact Hinv]. by repeat split.
    + by apply delete_Permutation.
Qed.

Lemma run_queue evs : forall s, queue_inv s -> queue_inv (run s evs).
Proof.
  induction evs as [|ev evs IH]; intros s Hinv; [done|].
  cbn. apply IH. by apply step_queue.
Qed.

Lemma load_queue href0 d loading : queue_inv (load href0 d loading).
Proof.
  unfold load.
  set (s0 := State _ _ _ _ _ _ _ _ _ _ _).
  assert (queue_inv s0) as H0.
  { split; cbn; try (by intros x ?%elem_of_nil); try apply NoDup_nil_2;
      intros x; split; (by intros ?%elem_of_nil) || (by intros ?%elem_of_empty). }
  set (s1 := if _ || _ then _ else s0).
  assert (queue_inv s1) as H1.
  { subst s1. destruct (_ || _); [|done].
    assert (queue_inv (add_task InitialCheck (set_monitoring true s0))) as Ha.
    { eapply same_queue_state_inv; [by apply add_other_task|].
      eapply same_queue_state_inv; [|exact H0]. by repeat split. }
    destruct loading.
    - eapply same_queue_state_inv; [by apply add_other_task|done].
    - eapply same_queue_state_inv; [apply startObserver_same_queue|done]. }
  destruct (isEnskildPage href0); [|done].
  eapply same_queue_state_inv; [apply handleEnskildPage_same_queue|done].
Qed.

(** The invariant holds after every event of every run of the script. *)
Lemma reachable_queue href0 d loading evs : queue_inv (run (load href0 d loading) evs).
Proof. apply run_queue, load_queue. Qed.

Lemma elem_of_check_ids x ts : x ∈ check_ids ts <-> CaptureCheck x ∈ ts.
Proof.
  unfold check_ids. rewrite list_elem_of_omap. split.
  - intros (t & Ht & Hx). by destruct t; simplify_eq/=.
  - intros H. by exists (CaptureCheck x).
Qed.

(** X11.  In every run, the pending set is exactly the set of ids whose
    capture check is waiting in the event queue, and no id has two
    checks waiting: an id never stays pending without a timer that will
    release it, and when no capture check is waiting the pending set is
    empty. *)
Theorem pending_is_waiting_checks href0 d loading (evs : list event) :
  (forall x, x ∈ pendingCaptures (run (load href0 d loading) evs)
             <-> CaptureCheck x ∈ tasks (run (load href0 d loading) evs))
  /\ NoDup (check_ids (tasks (run (load href0 d loading) evs))).
Proof.
  pose proof (reachable_queue href0 d loading evs) as [H1 H2 _ _ _ _ _].
  split; [|done]. intros x. by rewrite H1, elem_of_check_ids.
Qed.

(** X12.  In every run, the captured set is exactly the set of ids for
    which a capture record has been sent: an id is marked captured only
    together with the sending of its record. *)
Theorem captured_is_sent href0 d loading (evs : list event) (x : jsstring) :
  x ∈ capturedKungorelseIds (run (load href0 d loading) evs)
  <-> x ∈ sent_ids (outbox (run (load href0 d loading) evs)).
Proof. apply (q_captured _ (reachable_queue href0 d loading evs)). Qed.

Lemma elem_of_sent_records r out : r ∈ sent_records out <-> KV_SAVE_KUNGORELSE r ∈ out.
Proof.
  unfold sent_records. rewrite list_elem_of_omap. split.
  - intros (m & Hm & Hr). by destruct m; simplify_eq/=.
  - intros H. by exists (KV_SAVE_KUNGORELSE r).
Qed.

(** X13.  Every capture record sent in any run carries the URL of a
    detail page (the anchored pattern, without the alias segment), at
    least 500 characters of text, a non-empty title, and an id of the
    form K, digits and hyphens. *)
Theorem sent_records_well_formed href0 d loading (evs : list event) (r : CaptureRecord) :
  KV_SAVE_KUNGORELSE r ∈ outbox (run (load href0 d loading) evs) -> good_record r.
Proof.
  intros H. apply (q_records _ (reachable_queue href0 d loading evs)).
  by apply elem_of_sent_records.
Qed.

Lemma sent_records_witness :
  KV_SAVE_KUNGORELSE (record_of detail_url (page_with 1200 0) (js "K100-25") clock)
    ∈ outbox (run (load detail_url (page_with 1200 0) false)
                  [RunTask 0 clock; RunTask 0 clock])
  /\ good_record (record_of detail_url (page_with 1200 0) (js "K100-25") clock).
Proof.
  assert (KV_SAVE_KUNGORELSE (record_of detail_url (page_with 1200 0) (js "K100-25") clock)
            ∈ outbox (run (load detail_url (page_with 1200 0) false)
                          [RunTask 0 clock; RunTask 0 clock])) as Hin.
  { vm_compute. constructor. }
  split; [exact Hin|].
  exact (sent_records_well_formed detail_url (page_with 1200 0) false
           [RunTask 0 clock; RunTask 0 clock] _ Hin).
Defined.

(** X14.  Every link the script clicks, in any run, is a link to an
    announcement: its [href] contains /kungorelse/K, whichever of the
    three selectors found it. *)
Theorem clicks_are_announcement_links href0 d loading (evs : list event) (a : anchor) :
  a ∈ clicks (run (load href0 d loading) evs) -> announcement_href a = true.
Proof. apply (q_clicks _ (reachable_queue href0 d loading evs)). Qed.

Lemma clicks_witness :
  announcement_link
    ∈ clicks (run (load alias_url (page_with 100 1) false)
                  [RunTask 1 clock; RunTask 1 clock])
  /\ announcement_href announcement_link = true.
Proof.
  assert (announcement_link
            ∈ clicks (run (load alias_url (page_with 100 1) false)
                          [RunTask 1 clock; RunTask 1 clock])) as Hin.
  { vm_compute. constructor. }
  split; [exact Hin|].
  exact (clicks_are_announcement_links alias_url (page_with 100 1) false
           [RunTask 1 clock; RunTask 1 clock] _ Hin).
Defined.

End QueueInvariant.

(** ** Loading, bridging and the way to the collector *)

Section Pipeline.
Import Background Injected Content CaptureSpec Coverage.

Lemma passive_step ev s : passive s -> passive (step ev s).
Proof.
  intros (Hm & Ho & Ht & Hc & Hs & Hcap & Hpen). destruct ev; cbn [step].
  - by repeat split.
  - by repeat split.
  - unfold bridge. case_ifs; by repeat split.
  - by rewrite Hm.
  - by rewrite Ho.
  - by rewrite Ht.
Qed.

Lemma passive_run evs : forall s, passive s -> passive (run s evs).
Proof.
  induction evs as [|ev evs IH]; intros s Hs; [done|]. cbn. by apply IH, passive_step.
Qed.

(** X15.  The script starts the URL poller and the mutation observer
    only when the page it is loaded into is a detail page or an alias
    page.  Loaded into any other page it stays passive for good: in no
    run, whatever the single-page application navigates to afterwards,
    does it queue a capture, send a capture record or click a link; it
    only bridges window messages. *)
Theorem passive_script (href0 : jsstring) (d : document) (loading : bool)
    (evs : list event) :
  isKungorelsePage href0 = false ->
  isEnskildPage href0 = false ->
  passive (run (load href0 d loading) evs).
Proof.
  intros Hk He. apply passive_run. unfold load. rewrite Hk, He. by repeat split.
Qed.

Lemma passive_script_witness :
  passive
    (run (load listing_url (page_with 2000 0) false)
         [Navigate detail_url; Mutate (page_with 2000 0); PollTick; ObserverFire;
          RunTask 0 clock; Navigate alias_url; Mutate (page_with 100 1); PollTick;
          ObserverFire; RunTask 0 clock]).
Proof. apply (passive_script listing_url); reflexivity. Defined.

Lemma bridged_same_queue s s' :
  same_queue_state s s' -> bridged (outbox s') = bridged (outbox s).
Proof. by intros (_ & _ & -> & _). Qed.

Lemma captureKungorelseData_outbox s : outbox (captureKungorelseData s) = outbox s.
Proof.
  unfold captureKungorelseData.
  destruct (urlContainsEnskild _); [done|]. destruct (_ || _); [done|].
  destruct (extractKungorelseId _); [|done]. cbv zeta. by destruct (_ || _).
Qed.

Lemma captureCheck_bridged nid now s :
  bridged (outbox (captureCheck nid now s)) = bridged (outbox s).
Proof.
  unfold captureCheck. cbv zeta.
  destruct (_ || _); [done|]. destruct (has _ _); [done|].
  destruct (_ <? _)%nat; [done|]. destruct (_ && _); [done|].
  by destruct (urlContainsEnskild _).
Qed.

Lemma run_task_bridged t now s : bridged (outbox (run_task t now s)) = bridged (outbox s).
Proof.
  destruct t; cbn [run_task].
  - destruct (isEnskildPage _); [apply bridged_same_queue, handleEnskildPage_same_queue|].
    destruct (isKungorelsePage _); [by rewrite captureKungorelseData_outbox|done].
  - apply bridged_same_queue, startObserver_same_queue.
  - apply captureCheck_bridged.
  - destruct (_ && _); [by rewrite captureKungorelseData_outbox|done].
  - by rewrite captureKungorelseData_outbox.
  - unfold enskildDwell. destruct (first_link _ _); [done|].
    apply bridged_same_queue, resolved_same_queue.
  - unfold enskildClick.
    by rewrite (bridged_same_queue _ _ (resolved_same_queue k (push_click link s))).
Qed.

Lemma step_bridged ev s :
  bridged (outbox (step ev s))
  = match accepted_message ev with
    | Some p => p :: bridged (outbox s)
    | None => bridged (outbox s)
    end.
Proof.
  destruct ev; cbn [step accepted_message]; try done.
  - unfold bridge. destruct same_window; cbn [negb]; [|done].
    destruct (truthy data); cbn [negb orb andb]; [|done].
    destruct (is_true _); cbn [negb andb]; [|done].
    by destruct (is_type _ _ && truthy _).
  - destruct (monitoring s); [|done]. unfold poll. case_bool_decide; [done|].
    set (s2 := if has_body _ then _ else _).
    assert (outbox s2 = outbox s) as Hs2 by (subst s2; by destruct (has_body _)).
    destruct (re_enskild _).
    + by rewrite (bridged_same_queue _ _ (handleEnskildPage_same_queue _ s2)), Hs2.
    + destruct (re_kungorelse _); [by rewrite captureKungorelseData_outbox, Hs2|].
      by rewrite Hs2.
  - destruct (observing s); [|done]. unfold observe. destruct (re_enskild _); [|done].
    apply bridged_same_queue, handleEnskildPage_same_queue.
  - destruct (tasks s !! i); [|done]. by rewrite run_task_bridged.
Qed.

Lemma run_bridged evs : forall s,
  bridged (outbox (run s evs)) = rev (omap accepted_message evs) ++ bridged (outbox s).
Proof.
  induction evs as [|ev evs IH]; intros s; [done|].
  change (run s (ev :: evs)) with (run (step ev s) evs).
  rewrite IH, step_bridged.
  change (omap accepted_message (ev :: evs))
    with (match accepted_message ev with
          | Some p => p :: omap accepted_message evs
          | None => omap accepted_message evs
          end).
  destruct (accepted_message ev); [|done].
  cbn [rev]. by rewrite <- app_assoc.
Qed.

Lemma load_outbox href0 d loading : outbox (load href0 d loading) = [].
Proof.
  unfold load.
  set (s1 := if _ || _ then _ else _).
  assert (outbox s1 = []) as H1.
  { subst s1. destruct (_ || _); [|done]. destruct loading; [done|].
    unfold startObserver. by destruct (has_body _). }
  destruct (isEnskildPage href0); [|done].
  destruct (handleEnskildPage_same_queue NoFollowup s1) as (_ & _ & -> & _). done.
Qed.

(** X16.  The bridge is independent of everything else the script does:
    in every run from any page, the payloads it has passed on to the
    relay are exactly the payloads of the window messages that came from
    the page's own window, carried the marker and the type KV_SAVE_JSON
    and had a truthy payload; each once, in the order of arrival.
    Navigation, polling, clicks and captures neither drop nor add
    one. *)
Theorem bridge_forwards_in_order (href0 : jsstring) (d : document) (loading : bool)
    (evs : list event) :
  bridged (outbox (run (load href0 d loading) evs)) = rev (omap accepted_message evs).
Proof. by rewrite run_bridged, load_outbox, app_nil_r. Qed.

Lemma call_payload_relayed c :
  sanitizePayload (call_payload c)
  = call_payload (Intercepted (ic_url c) (relayed_data (ic_data c))).
Proof.
  unfold call_payload. rewrite sanitizePayload_object.
  rewrite lookup_insert_ne by done. rewrite lookup_singleton_eq.
  cbn [ic_url ic_data]. unfold relayed_data.
  destruct (ic_data c) as [ | |b|n|s|l|dm]; try done.
  destruct (dm !! js "data") as [inner|]; [|done].
  by destruct inner.
Qed.

(** X17.  From hook to collector.  The message that [bridgeSave] posts
    for an intercepted call passes the bridge of the content script,
    whatever the page state; and the relay answers the bridged message
    with exactly one request, to /save, whose body has the two
    properties of the call and no other: the URL as the hook recorded
    it, and the data with its company list (at top level or one level
    down) sanitized. *)
Theorem intercepted_call_reaches_save (c : InterceptedCall) (s : state) :
  outbox (step (WindowMessage true (bridgeSave (call_payload c))) s)
  = KV_SAVE_JSON (call_payload c) :: outbox s
  /\ onMessage (message_value (KV_SAVE_JSON (call_payload c)))
     = [Request (js "/save")
          (call_payload (Intercepted (ic_url c) (relayed_data (ic_data c))))].
Proof.
  split; [done|].
  change (onMessage (message_value (KV_SAVE_JSON (call_payload c))))
    with [Request (js "/save") (sanitizePayload (call_payload c))].
  by rewrite call_payload_relayed.
Qed.

(** X18.  The relay answers one message with at most one request.  A
    request goes to /save, for a message of type KV_SAVE_JSON, with the
    sanitized payload as body; or to /save_kungorelse, for a message of
    type KV_SAVE_KUNGORELSE, with the payload as body, unchanged.  A
    message of any other type, a message without a truthy payload, and
    anything that is not an object lead to no request. *)
Theorem relay_requests (msg : value) :
  (length (onMessage msg) <= 1)%nat
  /\ (forall r, r ∈ onMessage msg ->
        truthy (get msg (js "payload")) = true
        /\ ((is_type msg (js "KV_SAVE_JSON") = true
             /\ r = Request (js "/save") (sanitizePayload (get msg (js "payload"))))
            \/ (is_type msg (js "KV_SAVE_KUNGORELSE") = true
                /\ r = Request (js "/save_kungorelse") (get msg (js "payload"))))).
Proof.
  unfold onMessage, postToLocal, postKungorelseToLocal.
  destruct (negb (truthy msg) || negb (typeof_object msg)).
  { split; [cbn; lia|]. by intros r ?%elem_of_nil. }
  destruct (is_type msg (js "KV_SAVE_JSON")) eqn:Hj; cbn [andb].
  { destruct (truthy (get msg (js "payload"))) eqn:Hp.
    - split; [cbn; lia|]. intros r Hr%list_elem_of_singleton. subst r. split; [done|].
      by left.
    - destruct (is_type msg (js "KV_SAVE_KUNGORELSE")); cbn [andb];
        (split; [cbn; lia|]; by intros r ?%elem_of_nil). }
  destruct (is_type msg (js "KV_SAVE_KUNGORELSE")) eqn:Hk; cbn [andb].
  2:{ split; [cbn; lia|]. by intros r ?%elem_of_nil. }
  destruct (truthy (get msg (js "payload"))) eqn:Hp.
  2:{ split; [cbn; lia|]. by intros r ?%elem_of_nil. }
  assert (forall r q, r ∈ [q] -> q = Request (js "/save_kungorelse") (get msg (js "payload")) ->
            true = true
            /\ ((false = true /\ r = Request (js "/save") (sanitizePayload (get msg (js "payload"))))
                \/ (true = true
                    /\ r = Request (js "/save_kungorelse") (get msg (js "payload"))))) as Hone.
  { intros r q Hr%list_elem_of_singleton ->. subst r. split; [done|]. by right. }
  destruct (truthy (get (get msg (js "payload")) (js "url"))); cbn [andb].
  2:{ split; [cbn; lia|]. intros r Hr. by apply (Hone r _ Hr). }
  destruct (get (get msg (js "payload")) (js "url"));
    try (split; [cbn; lia|]; by intros r ?%elem_of_nil).
  destruct (urlContainsEnskild _); cbn [requests_of].
  - split; [cbn; lia|]. by intros r ?%elem_of_nil.
  - split; [cbn; lia|]. intros r Hr. by apply (Hone r _ Hr).
Qed.

Lemma not_alias_page u : urlContainsEnskild u = false -> isEnskildPage u = false.
Proof.
  intros H. destruct (isEnskildPage u) eqn:He; [|done].
  apply isEnskildPage_contains in He. congruence.
Qed.

(** X19.  The way of a detail page.  When the script is loaded into a
    rendered page whose URL matches the detail pattern, does not
    contain /enskild/, and yields an id, and the page text has at least
    1000 characters, then the initial check followed by the capture
    check sends exactly one message: the capture record with the page's
    URL, the extracted id, the text, the HTML of [main], the time of the
    capture check and the title; after it the id is captured and
    nothing is pending. *)
Theorem detail_page_captured (href0 x text t0 now : jsstring) (d : document) :
  re_kungorelse href0 = true ->
  urlContainsEnskild href0 = false ->
  extractKungorelseId href0 = Some x ->
  body_innerText d = Some text ->
  (1000 <= length text)%nat ->
  let s := run (load href0 d false) [RunTask 0 t0; RunTask 0 now] in
  outbox s = [KV_SAVE_KUNGORELSE (record_of href0 d x now)]
  /\ capturedKungorelseIds s = {[ x ]}
  /\ pendingCaptures s = ∅
  /\ tasks s = [].
Proof.
  intros Hre Hurl Hid Hbody Hlen.
  pose proof (not_alias_page _ Hurl) as He.
  assert (isKungorelsePage href0 = true) as Hk.
  { unfold isKungorelsePage. unfold urlContainsEnskild in Hurl. by rewrite Hurl. }
  assert (re_enskild href0 = false) as Hre'.
  { destruct (re_enskild href0) eqn:H; [|done].
    apply re_enskild_isEnskildPage in H. congruence. }
  pose proof (extractKungorelseId_id _ _ Hid) as Hshape.
  pose proof (announcement_id_no_slash _ Hshape) as Hrep.
  assert (has x (∅ : gset jsstring) = false) as Hno by (apply bool_decide_eq_false; set_solver).
  assert ((length text <? 500)%nat = false) as H5 by (apply Nat.ltb_ge; lia).
  assert ((length text <? 1000)%nat = false) as H10 by (apply Nat.ltb_ge; lia).
  assert (load href0 d false
          = State href0 d false ∅ ∅ true true href0 [InitialCheck] [] []) as ->.
  { unfold load. rewrite Hk, He. cbn [orb]. unfold startObserver, has_body.
    cbn [add_task set_monitoring doc tasks set_tasks]. by rewrite Hbody. }
  set (s0 := State href0 d false ∅ ∅ true true href0 [] [] []).
  assert (captureKungorelseData s0
          = State href0 d false ∅ {[ x ]} true true href0 [CaptureCheck x] [] []) as Hq.
  { unfold captureKungorelseData. subst s0. cbn [href]. rewrite Hurl, Hk, He, Hid.
    cbn [negb orb]. cbv zeta. rewrite Hrep.
    cbn [capturedKungorelseIds pendingCaptures]. rewrite Hno. cbn [orb].
    cbn [add_task set_pending tasks set_tasks app href doc enskildHandled
           capturedKungorelseIds pendingCaptures monitoring observing lastUrl outbox clicks].
    by rewrite union_empty_r_L. }
  set (s1 := State href0 d false ∅ {[ x ]} true true href0 [] [] []).
  assert (captureCheck x now s1
          = State href0 d false ({[ x ]} ∪ ∅) ({[ x ]} ∖ {[ x ]}) true true href0 []
              [KV_SAVE_KUNGORELSE (record_of href0 d x now)] []) as Hc.
  { unfold captureCheck. subst s1. cbn [href doc capturedKungorelseIds].
    rewrite Hre, Hre', Hno, Hurl, Hbody. cbn [negb orb default from_option id].
    rewrite H5, H10, andb_false_r.
    unfold record_of. by rewrite Hbody. }
  cbv zeta.
  change (run _ [RunTask 0 t0; RunTask 0 now])
    with (step (RunTask 0 now)
            (step (RunTask 0 t0)
               (State href0 d false ∅ ∅ true true href0 [InitialCheck] [] []))).
  assert (step (RunTask 0 t0) (State href0 d false ∅ ∅ true true href0 [InitialCheck] [] [])
          = captureKungorelseData s0) as ->.
  { cbn [step tasks]. change ([InitialCheck] !! 0%nat) with (Some InitialCheck).
    change (set_tasks _ _) with s0. cbn [run_task]. subst s0. cbn [href].
    by rewrite He, Hk. }
  rewrite Hq.
  assert (step (RunTask 0 now)
            (State href0 d false ∅ {[ x ]} true true href0 [CaptureCheck x] [] [])
          = captureCheck x now s1) as -> by done.
  rewrite Hc. cbn [outbox capturedKungorelseIds pendingCaptures tasks].
  repeat split; [apply union_empty_r_L | apply difference_diag_L].
Qed.

Lemma detail_page_captured_witness :
  let s := run (load detail_url (page_with 1200 0) false) [RunTask 0 clock; RunTask 0 clock] in
  outbox s = [KV_SAVE_KUNGORELSE (record_of detail_url (page_with 1200 0) (js "K100-25") clock)]
  /\ capturedKungorelseIds s = {[ js "K100-25" ]}
  /\ pendingCaptures s = ∅
  /\ tasks s = [].
Proof.
  apply (detail_page_captured detail_url (js "K100-25") (replicate 1200 120%N) clock clock
           (page_with 1200 0)); try reflexivity.
  rewrite length_replicate. lia.
Defined.

End Pipeline.
